(** * dc.js: filter coordination of the base chart mixin, and sunburst ring sizing

    Shallow embedding of [src/base/base-mixin.ts] (class [BaseMixin] and the
    default filter handlers defined next to it) and of the whisker function
    of the box plot, together with a model of the ring-size policies of the
    sunburst chart as its specification and its test suite describe them.

    Layout: part I holds every definition, parts II and III the lemmas. *)

From Stdlib Require Import ZArith String Ascii List QArith Qcanon Qcabs Floats.
From stdpp Require Import base list gmap strings pretty numbers sorting.

Local Open Scope string_scope.
Local Open Scope list_scope.
Set Warnings "-register-all".

(* ====================================================================== *)
(** * Part I. Definitions *)
(* ====================================================================== *)

(** ** Values of the host language *)

(** A number is an integer or [NaN]; fractional numbers do not occur in the
    filter code paths modelled here. *)
Inductive number :=
| NaN
| Int (z : Z).

(** Reference to a function object (an [isFiltered] method) in the engine's
    function table. *)
Definition fnref := nat.

(** Filter values are untyped in the source ([any]).  Arrays may carry the
    two properties dc's filter objects bless onto them: [isFiltered] (a
    function, or absent/falsy) and [filterType]. *)
Inductive value :=
| VUndefined
| VNull
| VBool (b : bool)
| VNum (n : number)
| VStr (s : string)
| VArr (elems : list value) (isFiltered : option fnref) (filterType : option string).

(** Exceptions that the modelled code can raise. *)
Inductive exn :=
| TypeError
| InvalidStateException (msg : string)
| BadArgumentException (msg : string).

(** Outcome of a call: normal completion with a result, or a thrown exception. *)
Inductive completion (A : Type) :=
| Normal (a : A)
| Throw (e : exn).
Arguments Normal {A} a.
Arguments Throw {A} e.

(** Sequencing: an exception raised by the first computation propagates. *)
Global Instance completion_ret : MRet completion := λ A a, Normal a.
Global Instance completion_bind : MBind completion := λ A B k m,
  match m with
  | Normal a => k a
  | Throw e => Throw e
  end.

(** [forEach] over a list with a callback that may throw. *)
Fixpoint forEach {A} (f : A → completion unit) (l : list A) : completion unit :=
  match l with
  | [] => Normal tt
  | x :: l' => _ ← f x; forEach f l'
  end.

(** ToBoolean. *)
Definition truthy (v : value) : bool :=
  match v with
  | VUndefined | VNull => false
  | VBool b => b
  | VNum NaN => false
  | VNum (Int z) => negb (z =? 0)%Z
  | VStr s => negb (String.eqb s "")
  | VArr _ _ _ => true
  end.

(** The two services of the host engine that the filter code relies on:
    the abstract relational comparison [x < y] of ECMAScript ([Some true],
    [Some false], or [None] for "undefined", i.e. when an operand converts
    to NaN), and the call [this.isFiltered(d)] of a function object, of
    which only the truthiness of the result is observed. *)
Class Engine := {
  lessThan : value → value → option bool;
  invoke : fnref → value → value → bool
}.

Section Operators.
Context `{Engine}.

(** [a < b] *)
Definition js_lt (a b : value) : bool :=
  match lessThan a b with Some true => true | _ => false end.
(** [a > b]: computed from [b < a], undefined counts as false. *)
Definition js_gt (a b : value) : bool :=
  match lessThan b a with Some true => true | _ => false end.
(** [a <= b]: false when [b < a] is true or undefined. *)
Definition js_le (a b : value) : bool :=
  match lessThan b a with Some false => true | _ => false end.
(** [a >= b]: false when [a < b] is true or undefined. *)
Definition js_ge (a b : value) : bool :=
  match lessThan a b with Some false => true | _ => false end.
End Operators.

(** Property reads [v.isFiltered] and [v.filterType].  Reading a property of
    [null] or [undefined] throws; primitives have neither property. *)
Definition get_isFiltered (v : value) : completion (option fnref) :=
  match v with
  | VUndefined | VNull => Throw TypeError
  | VArr _ p _ => Normal p
  | _ => Normal None
  end.

Definition get_filterType (v : value) : completion (option string) :=
  match v with
  | VUndefined | VNull => Throw TypeError
  | VArr _ _ t => Normal t
  | _ => Normal None
  end.

(** ** The crossfilter dimension (external collaborator)

    Only the calls made on it are observable; they are recorded in order. *)
Inductive dim_call :=
| Filter (v : value)
| FilterExact (v : value)
| FilterRange (v : value)
| FilterFunction (p : value → completion bool).

Record MinimalCFDimension := {
  (** whether the object has a [filter] member (tested by [applyFilters]) *)
  filter_member : bool;
  calls : list dim_call
}.

Definition called (dimension : MinimalCFDimension) (c : dim_call) : MinimalCFDimension :=
  {| filter_member := filter_member dimension; calls := calls dimension ++ [c] |}.

(** ** Default filter handlers (base-mixin.ts, lines 29-78) *)

Section DefaultHandlers.
Context `{Engine}.

(** The predicate handed to [dimension.filterFunction]: the loop of lines
    40-50, over the filter list as it is when the handler runs. *)
Fixpoint filterFunction_predicate (filters : list value) (d : value) : completion bool :=
  match filters with
  | [] => Normal false
  | filter :: rest =>
      p ← get_isFiltered filter;
      match p with
      | Some fn =>
          if invoke fn filter d then Normal true
          else filterFunction_predicate rest d
      | None =>
          if js_le filter d && js_ge filter d then Normal true
          else filterFunction_predicate rest d
      end
  end.

Definition _defaultFilterHandler (dimension : MinimalCFDimension) (filters : list value)
  : completion (MinimalCFDimension * option (list value)) :=
  dimension' ←
    match filters with
    | [] => Normal (called dimension (Filter VNull))
    | [f0] =>
        p ← get_isFiltered f0;
        match p with
        | None => Normal (called dimension (FilterExact f0))
        | Some _ =>
            t ← get_filterType f0;
            if bool_decide (t = Some "RangedFilter")
            then Normal (called dimension (FilterRange f0))
            else Normal (called dimension (FilterFunction (filterFunction_predicate filters)))
        end
    | _ => Normal (called dimension (FilterFunction (filterFunction_predicate filters)))
    end;
  Normal (dimension', Some filters).

Definition _defaultHasFilterHandler (filters : list value) (filter : value) : bool :=
  match filter with
  | VNull | VUndefined => bool_decide (0 < length filters)
  | _ => existsb (fun f => js_le filter f && js_ge filter f) filters
  end.

(** Lines 63-71: splice out the first entry that is value-equal to [filter]. *)
Fixpoint _defaultRemoveFilterHandler (filters : list value) (filter : value) : list value :=
  match filters with
  | [] => []
  | f :: rest =>
      if js_le f filter && js_ge f filter then rest
      else f :: _defaultRemoveFilterHandler rest filter
  end.

Definition _defaultAddFilterHandler (filters : list value) (filter : value) : list value :=
  filters ++ [filter].

Definition _defaultResetFilterHandler (filters : list value) : list value := [].
End DefaultHandlers.

(** ** The chart object (class [BaseMixin]) *)

(** Observable effects on collaborators (listeners, DOM controls, legend,
    console, chart group), recorded in order of occurrence. *)
Inductive event :=
| Dispatched (type : string) (arg : option value)
    (** [_listeners.call(type, this, this[, arg])] *)
| Scheduled (type : string)
    (** dispatch of [type] registered on the end of the svg transition *)
| ControlsOn
| ControlsOff
| DoRender
| DoRedraw
| SizeSvg
| LegendRender
| ConsoleLog (error : value)
| RedrawAll
| RenderAll.

(** A commit handler receives the render/redraw flag and an error-first
    callback; both it and the callback act on the world of effects, and
    either may throw.  The handler is free to call the callback or not, with
    the arguments it likes, and to catch what the callback throws. *)
Definition commit_callback := value → value → list event → completion (list event).
Definition commit_handler := bool → commit_callback → list event → completion (list event).

(** [_anchor : string | Element]. *)
Inductive anchor_ref :=
| AnchorUndefined
| AnchorSelector (s : string)
| AnchorElement (id : string).

(** [_root]: never set, set to [null], or a d3 selection. *)
Inductive root_ref :=
| RootUndefined
| RootNull
| RootSelection.

Record kv := { key : value; val : value }.

Record MinimalCFGroup := { all : list kv }.

(** What a method hands back: the chart itself (chaining) or a value. *)
Inductive ret :=
| This
| Returned (v : value).

Record BaseMixin := {
  _conf_dimension : option MinimalCFDimension;
  _group : option MinimalCFGroup;
  _anchor : anchor_ref;
  _root : root_ref;
  _svg : bool;
  __dcFlag__ : string;
  _width : option Z;
  _height : option Z;
  _transitionDuration : Z;
  _mandatoryAttributesList : option (list string);
  _legend : bool;
  _commitHandler : option commit_handler;
  _chartGroup : bool;
    (** [_chartGroup] is a group of the registry ([true]) or still
        [undefined] ([false]): the constructor leaves it unset, [anchor]
        sets it (line 418) *)
  _ordering : kv → value;
  _filters : list value;
  _filterHandler : MinimalCFDimension → list value
                   → completion (MinimalCFDimension * option (list value));
  _hasFilterHandler : list value → value → bool;
  _removeFilterHandler : list value → value → list value;
  _addFilterHandler : list value → value → list value;
  _resetFilterHandler : list value → list value;
  trace : list event
}.

(** Field updates. *)
Definition with_filters (c : BaseMixin) (fs : list value) : BaseMixin :=
  {| _conf_dimension := _conf_dimension c; _group := _group c; _anchor := _anchor c;
     _root := _root c; _svg := _svg c; __dcFlag__ := __dcFlag__ c;
     _width := _width c; _height := _height c;
     _transitionDuration := _transitionDuration c;
     _mandatoryAttributesList := _mandatoryAttributesList c; _legend := _legend c;
     _commitHandler := _commitHandler c; _ordering := _ordering c;
     _chartGroup := _chartGroup c;
     _filters := fs;
     _filterHandler := _filterHandler c; _hasFilterHandler := _hasFilterHandler c;
     _removeFilterHandler := _removeFilterHandler c;
     _addFilterHandler := _addFilterHandler c;
     _resetFilterHandler := _resetFilterHandler c; trace := trace c |}.

Definition with_dimension (c : BaseMixin) (d : MinimalCFDimension) : BaseMixin :=
  {| _conf_dimension := Some d; _group := _group c; _anchor := _anchor c;
     _root := _root c; _svg := _svg c; __dcFlag__ := __dcFlag__ c;
     _width := _width c; _height := _height c;
     _transitionDuration := _transitionDuration c;
     _mandatoryAttributesList := _mandatoryAttributesList c; _legend := _legend c;
     _commitHandler := _commitHandler c; _ordering := _ordering c;
     _chartGroup := _chartGroup c;
     _filters := _filters c;
     _filterHandler := _filterHandler c; _hasFilterHandler := _hasFilterHandler c;
     _removeFilterHandler := _removeFilterHandler c;
     _addFilterHandler := _addFilterHandler c;
     _resetFilterHandler := _resetFilterHandler c; trace := trace c |}.

Definition with_trace (c : BaseMixin) (t : list event) : BaseMixin :=
  {| _conf_dimension := _conf_dimension c; _group := _group c; _anchor := _anchor c;
     _root := _root c; _svg := _svg c; __dcFlag__ := __dcFlag__ c;
     _width := _width c; _height := _height c;
     _transitionDuration := _transitionDuration c;
     _mandatoryAttributesList := _mandatoryAttributesList c; _legend := _legend c;
     _commitHandler := _commitHandler c; _ordering := _ordering c;
     _chartGroup := _chartGroup c;
     _filters := _filters c;
     _filterHandler := _filterHandler c; _hasFilterHandler := _hasFilterHandler c;
     _removeFilterHandler := _removeFilterHandler c;
     _addFilterHandler := _addFilterHandler c;
     _resetFilterHandler := _resetFilterHandler c; trace := t |}.

Definition forget_size (c : BaseMixin) : BaseMixin :=
  {| _conf_dimension := _conf_dimension c; _group := _group c; _anchor := _anchor c;
     _root := _root c; _svg := _svg c; __dcFlag__ := __dcFlag__ c;
     _width := None; _height := None;
     _transitionDuration := _transitionDuration c;
     _mandatoryAttributesList := _mandatoryAttributesList c; _legend := _legend c;
     _commitHandler := _commitHandler c; _ordering := _ordering c;
     _chartGroup := _chartGroup c;
     _filters := _filters c;
     _filterHandler := _filterHandler c; _hasFilterHandler := _hasFilterHandler c;
     _removeFilterHandler := _removeFilterHandler c;
     _addFilterHandler := _addFilterHandler c;
     _resetFilterHandler := _resetFilterHandler c; trace := trace c |}.

Definition emit (c : BaseMixin) (e : event) : BaseMixin :=
  with_trace c (trace c ++ [e]).

(** *** Filtering (lines 836-838, 937-958, 1010-1056) *)

Definition hasFilter (c : BaseMixin) (filter : option value) : bool :=
  _hasFilterHandler c (_filters c) (default VUndefined filter).

Definition filters (c : BaseMixin) : list value := _filters c.

Definition applyFilters (c : BaseMixin) (filters : list value)
  : completion (BaseMixin * list value) :=
  match _conf_dimension c with
  | Some dimension =>
      if filter_member dimension then
        r ← _filterHandler c dimension filters;
        Normal (with_dimension c r.1, default filters r.2)
      else Normal (c, filters)
  | None => Normal (c, filters)
  end.

Definition _invokeFilteredListener (c : BaseMixin) (f : value) : BaseMixin :=
  match f with
  | VUndefined => c
  | _ => emit c (Dispatched "filtered" (Some f))
  end.

Definition root_truthy (c : BaseMixin) : bool :=
  match _root c with RootSelection => true | _ => false end.

(** [this._root !== null] *)
Definition root_not_null (c : BaseMixin) : bool :=
  match _root c with RootNull => false | _ => true end.

Definition turnOnControls (c : BaseMixin) : BaseMixin :=
  if root_truthy c then emit c ControlsOn else c.

Definition turnOffControls (c : BaseMixin) : BaseMixin :=
  if root_truthy c then emit c ControlsOff else c.

(** One toggle step (lines 1021-1025 and 1030-1034). *)
Definition toggle (c : BaseMixin) (filters : list value) (f : value) : list value :=
  if _hasFilterHandler c filters f
  then _removeFilterHandler c filters f
  else _addFilterHandler c filters f.

(** The local [filters] of [filter(filter)] after lines 1016-1035.

    Arguments are values of their own: the array [filter[0]] of the
    element-wise form is not the array that [_filters] holds.  (When it is,
    as in [chart.filter([chart.filters()])], [forEach] walks the very array
    that the default handlers [push] to and [splice]; [nextFilters_own]
    below is that case.) *)
Definition nextFilters (c : BaseMixin) (filter : value) : list value :=
  match filter with
  | VArr (VArr inner _ _ :: _) None _ => foldl (toggle c) (_filters c) inner
  | VNull => _resetFilterHandler c (_filters c)
  | _ => toggle c (_filters c) filter
  end.

(** [forEach] over the live array [filters] while the callback of lines
    1020-1026 replaces it: the length is read once, before the first visit;
    index [i] is visited if the array still has it, with the element found
    there at that moment. *)
Fixpoint forEach_live (c : BaseMixin) (visits i : nat) (filters : list value)
  : list value :=
  match visits with
  | O => filters
  | S visits' =>
      match filters !! i with
      | Some f => forEach_live c visits' (S i) (toggle c filters f)
      | None => forEach_live c visits' (S i) filters
      end
  end.

(** The local [filters] after [filter([this._filters])], for handlers that
    update the array in place and return it, as the default add and remove
    handlers do. *)
Definition nextFilters_own (c : BaseMixin) : list value :=
  forEach_live c (List.length (_filters c)) 0 (_filters c).

(** [filter()] is [filter c None]; [filter(v)] is [filter c (Some v)]. *)
Definition filter (c : BaseMixin) (arg : option value) : completion (BaseMixin * ret) :=
  match arg with
  | None =>
      Normal (c, Returned match _filters c with f0 :: _ => f0 | [] => VNull end)
  | Some filter =>
      r ← applyFilters c (nextFilters c filter);
      let c := with_filters r.1 r.2 in
      let c := _invokeFilteredListener c filter in
      let c := if root_not_null c && hasFilter c None
               then turnOnControls c else turnOffControls c in
      Normal (c, This)
  end.

Definition filterAll (c : BaseMixin) : completion (BaseMixin * ret) :=
  filter c (Some VNull).

Definition replaceFilter (c : BaseMixin) (filter_ : value) : completion (BaseMixin * ret) :=
  r ← filter (with_filters c (_resetFilterHandler c (_filters c))) (Some filter_);
  Normal (r.1, This).

(** *** Mandatory attributes and rendering (lines 450-460, 649-698) *)

(** [a.replace('#', '')]: drops the first [#]. *)
Fixpoint drop_first_hash (s : string) : string :=
  match s with
  | EmptyString => EmptyString
  | String ch s' => if Ascii.eqb ch "#"%char then s' else String ch (drop_first_hash s')
  end.

Definition chartID (c : BaseMixin) : string := __dcFlag__ c.

Definition anchorName (c : BaseMixin) : string :=
  let fallback := "dc-chart" +:+ chartID c in
  match _anchor c with
  | AnchorUndefined => fallback
  | AnchorSelector s => if String.eqb s "" then fallback else drop_first_hash s
  | AnchorElement id => if String.eqb id "" then fallback else id
  end.

(** Member lookup [this[a]] followed by the zero-argument call [this[a]()],
    for the accessor members of the class whose state the chart record
    holds: [Some t] when the member exists and the call yields a value of
    truthiness [t], [None] when the instance has no member of that name.
    The class declares no member [dimension] (the dimension lives in
    [_conf.dimension]).  The accessors of the functions that the record does
    not hold ([keyAccessor], [valueAccessor], [label], [title],
    [filterPrinter]) answer the function that the constructor installs.

    The table is not the whole class.  The other members (accessors of
    state that the record leaves out, such as [width]; methods with effects,
    such as [render]; fields such as [_filters], whose call throws a
    [TypeError]; and what [Object.prototype] provides) are not in it, and
    [None] is not the answer of the source for them: statements that rest on
    an answer other than [Some true] keep to the names of [member_modelled]
    below. *)
Definition member (c : BaseMixin) (a : string) : option bool :=
  if String.eqb a "group" then Some (bool_decide (is_Some (_group c)))
  else if String.eqb a "anchor" then
    Some match _anchor c with
         | AnchorUndefined => false
         | AnchorSelector s => negb (String.eqb s "")
         | AnchorElement _ => true
         end
  else if String.eqb a "root" then Some (root_truthy c)
  else if String.eqb a "svg" then Some (_svg c)
  else if String.eqb a "legend" then Some (_legend c)
  else if String.eqb a "commitHandler" then Some (bool_decide (is_Some (_commitHandler c)))
  else if String.eqb a "transitionDuration" then Some (negb (_transitionDuration c =? 0)%Z)
  else if String.eqb a "chartID" then Some (negb (String.eqb (chartID c) ""))
  else if String.eqb a "anchorName" then Some (negb (String.eqb (anchorName c) ""))
  else if String.eqb a "filters" then Some true
  else if String.eqb a "filter" then
    Some match _filters c with f0 :: _ => truthy f0 | [] => false end
  else if String.eqb a "hasFilter" then Some (hasFilter c None)
  else if String.eqb a "ordering" then Some true
  else if String.eqb a "filterHandler" then Some true
  else if String.eqb a "hasFilterHandler" then Some true
  else if String.eqb a "removeFilterHandler" then Some true
  else if String.eqb a "addFilterHandler" then Some true
  else if String.eqb a "resetFilterHandler" then Some true
  else if String.eqb a "keyAccessor" then Some true
  else if String.eqb a "valueAccessor" then Some true
  else if String.eqb a "label" then Some true
  else if String.eqb a "title" then Some true
  else if String.eqb a "filterPrinter" then Some true
  else if String.eqb a "chartGroup" then Some (_chartGroup c)
  else None.

Definition missing_message (c : BaseMixin) (a : string) : string :=
  "Mandatory attribute chart." +:+ a +:+ " is missing on chart[#" +:+ anchorName c +:+ "]".

(** [if (!this[a] || !this[a]())] throw the [InvalidStateException]
    (lines 649-653), on the names of [member_modelled].  (For a field that
    holds a truthy value that is no function, [_filters] say, the call
    [this[a]()] throws a [TypeError]; the table of [member] has no
    fields.) *)
Definition checkForMandatoryAttributes (c : BaseMixin) (a : string) : completion unit :=
  match member c a with
  | Some true => Normal tt
  | Some false | None => Throw (InvalidStateException (missing_message c a))
  end.

Definition _doRender (c : BaseMixin) : BaseMixin := emit c DoRender.
Definition _doRedraw (c : BaseMixin) : BaseMixin := emit c DoRedraw.

Definition _activateRenderlets (c : BaseMixin) (event : option string) : BaseMixin :=
  let c := emit c (Dispatched "pretransition" None) in
  if (0 <? _transitionDuration c)%Z && _svg c then
    let c := emit c (Scheduled "renderlet") in
    match event with Some e => emit c (Scheduled e) | None => c end
  else
    let c := emit c (Dispatched "renderlet" None) in
    match event with Some e => emit c (Dispatched e None) | None => c end.

Definition render (c : BaseMixin) : completion (BaseMixin * ret) :=
  let c := forget_size c in
  let c := emit c (Dispatched "preRender" None) in
  _ ← match _mandatoryAttributesList c with
      | Some l => forEach (checkForMandatoryAttributes c) l
      | None => Normal tt
      end;
  let c := _doRender c in
  let c := if _legend c then emit c LegendRender else c in
  let c := _activateRenderlets c (Some "postRender") in
  Normal (c, This).

Definition redraw (c : BaseMixin) : BaseMixin * ret :=
  let c := emit c SizeSvg in
  let c := emit c (Dispatched "preRedraw" None) in
  let c := _doRedraw c in
  let c := if _legend c then emit c LegendRender else c in
  let c := _activateRenderlets c (Some "postRedraw") in
  (c, This).

(** *** Group-wide redraw and render (lines 752-785, 1322-1336) *)

(** [this.chartGroup().redrawAll()] and [this.chartGroup().renderAll()]:
    [chartGroup()] returns [_chartGroup]; calling a method of [undefined]
    throws a [TypeError]. *)
Definition chartGroup_call (c : BaseMixin) (e : event) (w : list event)
  : completion (list event) :=
  if _chartGroup c then Normal (w ++ [e])%list else Throw TypeError.

(** The error-first callbacks handed to the commit handler. *)
Definition redrawGroup_callback (c : BaseMixin) : commit_callback :=
  λ error result w,
    if truthy error then Normal (w ++ [ConsoleLog error])%list
    else chartGroup_call c RedrawAll w.

Definition renderGroup_callback (c : BaseMixin) : commit_callback :=
  λ error result w,
    if truthy error then Normal (w ++ [ConsoleLog error])%list
    else chartGroup_call c RenderAll w.

Definition redrawGroup (c : BaseMixin) : completion (BaseMixin * ret) :=
  match _commitHandler c with
  | Some handler =>
      w ← handler false (redrawGroup_callback c) (trace c);
      Normal (with_trace c w, This)
  | None =>
      w ← chartGroup_call c RedrawAll (trace c);
      Normal (with_trace c w, This)
  end.

Definition renderGroup (c : BaseMixin) : completion (BaseMixin * ret) :=
  match _commitHandler c with
  | Some handler =>
      w ← handler false (renderGroup_callback c) (trace c);
      Normal (with_trace c w, This)
  | None =>
      w ← chartGroup_call c RenderAll (trace c);
      Normal (with_trace c w, This)
  end.

(** *** Ordered groups (lines 355-358) *)

(** [Array.prototype.sort(comparefn)] on the elements of an array: an
    element moves behind another only when [comparefn] returns a positive
    number for the pair ([NaN] counts as [+0]); the sort is stable.

    ECMAScript fixes the outcome of [sort] for a consistent comparator only
    (one that orders the elements of the array as a total preorder does);
    there it is the one stable rearrangement, which the insertion sort
    [Array_sort] below computes.  For any other comparator ECMAScript
    leaves the order to the engine: [Array_sort] is then one of the orders
    it admits, not necessarily the one that a given engine produces, and
    what holds of every engine is that the outcome is a rearrangement of
    the elements. *)
Definition positive_result (r : number) : bool :=
  match r with
  | Int z => (0 <? z)%Z
  | NaN => false
  end.

(** [comparefn] lets [a] stay in front of [b]. *)
Definition keeps {A} (comparefn : A → A → number) (a b : A) : Prop :=
  positive_result (comparefn a b) = false.

Fixpoint sort_insert {A} (comparefn : A → A → number) (x : A) (l : list A) : list A :=
  match l with
  | [] => [x]
  | y :: l' =>
      if positive_result (comparefn x y) then y :: sort_insert comparefn x l'
      else x :: y :: l'
  end.

Fixpoint Array_sort {A} (comparefn : A → A → number) (l : list A) : list A :=
  match l with
  | [] => []
  | x :: l' => sort_insert comparefn x (Array_sort comparefn l')
  end.

Section Ordering.
Context `{Engine}.

(** [ascending] of d3-array:
    [a < b ? -1 : a > b ? 1 : a >= b ? 0 : NaN]. *)
Definition ascending (a b : value) : number :=
  if js_lt a b then Int (-1)
  else if js_gt a b then Int 1
  else if js_ge a b then Int 0
  else NaN.

(** Arrays of records live in a store, addressed by reference.
    [Array.from] allocates a fresh array holding the same elements. *)
Definition Array_from (h : gmap nat (list kv)) (data : nat)
  : option (gmap nat (list kv) * nat) :=
  l ← h !! data;
  Some (<[fresh (dom h) := l]> h, fresh (dom h)).

(** [arr.sort(comparefn)] sorts the array at [arr] in place and returns [arr]. *)
Definition sort_in_place (comparefn : kv → kv → number)
    (h : gmap nat (list kv)) (arr : nat) : option (gmap nat (list kv) * nat) :=
  l ← h !! arr;
  Some (<[arr := Array_sort comparefn l]> h, arr).

Definition _computeOrderedGroups (c : BaseMixin) (h : gmap nat (list kv)) (data : nat)
  : option (gmap nat (list kv) * nat) :=
  copy ← Array_from h data;
  sort_in_place (λ a b, ascending (_ordering c a) (_ordering c b)) copy.1 copy.2.
End Ordering.

(** *** A freshly constructed chart (constructor, lines 130-204) *)

Section Constructor.
Context `{Engine}.

Definition new_BaseMixin (id : string) : BaseMixin :=
  {| _conf_dimension := None; _group := None; _anchor := AnchorUndefined;
     _root := RootUndefined; _svg := false; __dcFlag__ := id;
     _width := None; _height := None;
     _transitionDuration := 750;
     _mandatoryAttributesList := Some ["dimension"; "group"]; _legend := false;
     _commitHandler := None; _ordering := key; _chartGroup := false;
     _filters := [];
     _filterHandler := _defaultFilterHandler;
     _hasFilterHandler := _defaultHasFilterHandler;
     _removeFilterHandler := _defaultRemoveFilterHandler;
     _addFilterHandler := _defaultAddFilterHandler;
     _resetFilterHandler := _defaultResetFilterHandler; trace := [] |}.

(** The chart uses the default has/add/remove/reset filter handlers. *)
Definition default_handlers (c : BaseMixin) : Prop :=
  _hasFilterHandler c = _defaultHasFilterHandler ∧
  _addFilterHandler c = _defaultAddFilterHandler ∧
  _removeFilterHandler c = _defaultRemoveFilterHandler ∧
  _resetFilterHandler c = _defaultResetFilterHandler.
End Constructor.

(** Setters used to configure a chart: [group(g)], [anchor(parent)] and
    [commitHandler(h)]; [configure({dimension: d})] is [with_dimension].

    [anchor_set] is [anchor(parent)] for a non-empty selector string
    [parent]: the chart joins the default group of the registry (line 418),
    [_anchor] takes the string (line 430) and [_root] the selection that d3
    makes of it (line 432).  For a string that is no CSS selector (the bare
    ['#'], say) d3's [select] throws at line 432, after [_anchor] and
    [_chartGroup] are assigned and before [_root] is: of the chart that this
    leaves behind, [anchor_set] gives the fields [_anchor] and [_chartGroup]
    only. *)
Definition group_set (c : BaseMixin) (g : MinimalCFGroup) : BaseMixin :=
  {| _conf_dimension := _conf_dimension c; _group := Some g; _anchor := _anchor c;
     _root := _root c; _svg := _svg c; __dcFlag__ := __dcFlag__ c;
     _width := _width c; _height := _height c;
     _transitionDuration := _transitionDuration c;
     _mandatoryAttributesList := _mandatoryAttributesList c; _legend := _legend c;
     _commitHandler := _commitHandler c; _ordering := _ordering c;
     _chartGroup := _chartGroup c;
     _filters := _filters c;
     _filterHandler := _filterHandler c; _hasFilterHandler := _hasFilterHandler c;
     _removeFilterHandler := _removeFilterHandler c;
     _addFilterHandler := _addFilterHandler c;
     _resetFilterHandler := _resetFilterHandler c; trace := trace c |}.

Definition anchor_set (c : BaseMixin) (selector : string) : BaseMixin :=
  {| _conf_dimension := _conf_dimension c; _group := _group c;
     _anchor := AnchorSelector selector;
     _root := RootSelection; _svg := _svg c; __dcFlag__ := __dcFlag__ c;
     _width := _width c; _height := _height c;
     _transitionDuration := _transitionDuration c;
     _mandatoryAttributesList := _mandatoryAttributesList c; _legend := _legend c;
     _commitHandler := _commitHandler c; _ordering := _ordering c;
     _chartGroup := true;
     _filters := _filters c;
     _filterHandler := _filterHandler c; _hasFilterHandler := _hasFilterHandler c;
     _removeFilterHandler := _removeFilterHandler c;
     _addFilterHandler := _addFilterHandler c;
     _resetFilterHandler := _resetFilterHandler c; trace := trace c |}.

Definition commitHandler_set (c : BaseMixin) (h : commit_handler) : BaseMixin :=
  {| _conf_dimension := _conf_dimension c; _group := _group c; _anchor := _anchor c;
     _root := _root c; _svg := _svg c; __dcFlag__ := __dcFlag__ c;
     _width := _width c; _height := _height c;
     _transitionDuration := _transitionDuration c;
     _mandatoryAttributesList := _mandatoryAttributesList c; _legend := _legend c;
     _commitHandler := Some h; _ordering := _ordering c;
     _chartGroup := _chartGroup c;
     _filters := _filters c;
     _filterHandler := _filterHandler c; _hasFilterHandler := _hasFilterHandler c;
     _removeFilterHandler := _removeFilterHandler c;
     _addFilterHandler := _addFilterHandler c;
     _resetFilterHandler := _resetFilterHandler c; trace := trace c |}.

(** ** A concrete engine

    The relational comparison of ECMAScript on the values above: arrays
    convert to the comma-joined string of their elements, two strings compare
    by code units, anything else compares numerically after [ToNumber].
    The engine is a sample one, used to evaluate the statements at concrete
    inputs; the laws of Part II hold for every [Engine].  Its numbers are
    [NaN] and the integers, held exactly, and [StringToNumber] reads the
    empty string and the decimal integers with an optional [-]: on those
    strings, and on integers of magnitude up to [2^53], it answers as the
    host does.  The other numeric notations of the host (a leading [+],
    surrounding white space, fractions, exponents, hexadecimal digits,
    [Infinity]) it takes for [NaN], and it does not round large integers to
    binary64; no statement below is evaluated on such input. *)

Fixpoint ToString (v : value) : string :=
  match v with
  | VUndefined => "undefined"
  | VNull => "null"
  | VBool true => "true"
  | VBool false => "false"
  | VNum NaN => "NaN"
  | VNum (Int z) => pretty z
  | VStr s => s
  | VArr elems _ _ =>
      let fix join (l : list value) : string :=
        match l with
        | [] => ""
        | x :: l' =>
            let sx := match x with
                      | VUndefined | VNull => ""
                      | _ => ToString x
                      end in
            match l' with
            | [] => sx
            | _ => sx +:+ "," +:+ join l'
            end
        end in
      join elems
  end.

Definition ToPrimitive (v : value) : value :=
  match v with
  | VArr _ _ _ => VStr (ToString v)
  | _ => v
  end.

Definition digit_value (ch : ascii) : option Z :=
  let n := N_of_ascii ch in
  if (48 <=? n)%N && (n <=? 57)%N then Some (Z.of_N (n - 48)) else None.

Fixpoint digits_value (acc : Z) (s : string) : option Z :=
  match s with
  | EmptyString => Some acc
  | String ch s' =>
      match digit_value ch with
      | Some d => digits_value (10 * acc + d) s'
      | None => None
      end
  end.

Definition StringToNumber (s : string) : number :=
  match s with
  | EmptyString => Int 0
  | String ch s' =>
      if Ascii.eqb ch "-"%char then
        match s' with
        | EmptyString => NaN
        | _ => match digits_value 0 s' with Some z => Int (- z) | None => NaN end
        end
      else match digits_value 0 s with Some z => Int z | None => NaN end
  end.

Definition ToNumber (v : value) : number :=
  match v with
  | VUndefined => NaN
  | VNull => Int 0
  | VBool true => Int 1
  | VBool false => Int 0
  | VNum n => n
  | VStr s => StringToNumber s
  | VArr _ _ _ => StringToNumber (ToString v)
  end.

Definition es_lessThan (x y : value) : option bool :=
  match ToPrimitive x, ToPrimitive y with
  | VStr s, VStr t => Some (String.ltb s t)
  | px, py =>
      match ToNumber px, ToNumber py with
      | Int a, Int b => Some (a <? b)%Z
      | _, _ => None
      end
  end.

(** Function table: [0] is [d => d > this[0]] (a threshold filter), [1] is
    the range test [this[0] <= d && d < this[1]]; other references hold
    [() => false]. *)
Definition es_invoke (fn : fnref) (this d : value) : bool :=
  match fn, this with
  | 0, VArr (lo :: _) _ _ =>
      match es_lessThan lo d with Some true => true | _ => false end
  | 1, VArr (lo :: hi :: _) _ _ =>
      match es_lessThan d lo, es_lessThan d hi with
      | Some false, Some true => true
      | _, _ => false
      end
  | _, _ => false
  end.

Definition es_engine : Engine :=
  {| lessThan := es_lessThan; invoke := es_invoke |}.

(** Sample values. *)
Definition num (z : Z) : value := VNum (Int z).
Definition plain_array (l : list value) : value := VArr l None None.
(** [RangedFilter(lo, hi)]: a two-element array blessed with [isFiltered]
    and [filterType = 'RangedFilter']. *)
Definition RangedFilter (lo hi : value) : value :=
  VArr [lo; hi] (Some 1) (Some "RangedFilter").
(** A threshold filter [[t]] whose [isFiltered] accepts the data above [t]. *)
Definition above (t : value) : value := VArr [t] (Some 0) (Some "Above").

(** A chart as the constructor leaves it, on the concrete engine. *)
Definition chart0 : BaseMixin := @new_BaseMixin es_engine "1".

(** The same chart with [_filters] preset. *)
Definition chart_with (fs : list value) : BaseMixin := with_filters chart0 fs.

Definition dimension0 : MinimalCFDimension := {| filter_member := true; calls := [] |}.

(** A commit handler that records the flag it is given and reports success. *)
Definition probe_commit : commit_handler :=
  λ isRender callback w,
    callback VNull VUndefined (w ++ [Dispatched "commit" (Some (VBool isRender))])%list.

(** A commit handler that reports the error ["boom"]. *)
Definition failing_commit : commit_handler :=
  λ isRender callback w, callback (VStr "boom") VUndefined w.

(** ** Sunburst ring sizing

    The class of the sunburst chart is not embedded; the definitions of
    this module follow the specification of its ring layout, over exact
    rational arithmetic. *)
Module Sunburst.
Local Open Scope Qc_scope.

(** Modelled from the spec: what a caller-supplied percentage function of
    [relativeRingSizes] (sunburst chart, absent) may hand back: something
    that is not an array, or an array of fractions. *)
Inductive portions :=
| NotAnArray
| Portions (l : list Qc).

(** Modelled from the spec: the active ring-size function of the sunburst
    chart (absent): the default policy, or a relative policy driven by a
    percentage function of the ring count. *)
Inductive ring_policy :=
| DefaultRingSizes
| RelativeRingSizes (percentages : nat → portions).

Fixpoint Qc_of_nat (n : nat) : Qc :=
  match n with
  | O => 0
  | S k => Qc_of_nat k + 1
  end.

Definition sum_list (l : list Qc) : Qc := foldr Qcplus 0 l.

(** Modelled from the spec: [defaultRingSizes()] of the sunburst chart
    (absent). *)
Definition defaultRingSizes : ring_policy := DefaultRingSizes.

(** Modelled from the spec: [relativeRingSizes(fn)] of the sunburst chart
    (absent) wraps a caller-supplied percentage function; nothing is checked
    until the policy is run. *)
Definition relativeRingSizes (percentages : nat → portions) : ring_policy :=
  RelativeRingSizes percentages.

(** Modelled from the spec: [equalRingSizes()] of the sunburst chart
    (absent): the relative policy whose fractions are all [1 / ringCount]. *)
Definition equalRingSizes : ring_policy :=
  RelativeRingSizes (λ ringCount, Portions (replicate ringCount (1 / Qc_of_nat ringCount))).

(** Modelled from the spec: the configuration of a sunburst chart (absent)
    that the radial partition reads. *)
Record SunburstChart := {
  innerRadius : Qc;
  outerRadius : Qc;
  _ringSizes : ring_policy
}.

(** Modelled from the spec: the setter [ringSizes(fn)] (absent) stores the
    policy and does not run it. *)
Definition ringSizes (c : SunburstChart) (policy : ring_policy) : completion SunburstChart :=
  Normal {| innerRadius := innerRadius c; outerRadius := outerRadius c;
            _ringSizes := policy |}.

(** Modelled from the spec: the number of rings of a set of grouped records
    is the depth (path length) of the deepest record. *)
Definition ringCount (data : list (list string * Qc)) : nat :=
  foldr Nat.max 0%nat ((λ r, List.length r.1) <$> data).

(** Modelled from the spec: a hierarchy with [n] complete ring levels: at
    least one record, and every path has length [n]. *)
Definition complete_rings (n : nat) (data : list (list string * Qc)) : Prop :=
  data ≠ [] ∧ Forall (λ r, List.length r.1 = n) data.

Section Policy.
(** Weight of a ring by depth under the default policy, and the tolerance
    of the sum check; the specification fixes neither value. *)
Variable weight : nat → Qc.
Variable tolerance : Qc.

(** Modelled from the spec: validation of the fractions returned by a
    percentage function (sunburst chart, absent): an array, of length
    [ringCount], summing to 1 within the tolerance. *)
Definition assertPortionsArray (relativeSizes : portions) (numberOfRings : nat)
  : completion (list Qc) :=
  match relativeSizes with
  | NotAnArray =>
      Throw (BadArgumentException "relativeRingSizes function must return an array")
  | Portions l =>
      if bool_decide (List.length l ≠ numberOfRings) then
        Throw (BadArgumentException "number of values must match number of rings")
      else if bool_decide (tolerance < Qcabs (sum_list l - 1)) then
        Throw (BadArgumentException "portions must add up to 1")
      else Normal l
  end.

(** Modelled from the spec: fractions of the remaining radius per ring
    (depth 1 first).  The default policy divides in proportion to the
    weight of each depth and never throws.  Of the weight the specification
    says only that it decreases with depth; it stays a parameter here, and
    what this model yields about the default policy is that it renders, not
    how thick its rings are. *)
Definition ringFractions (policy : ring_policy) (n : nat) : completion (list Qc) :=
  match policy with
  | DefaultRingSizes =>
      let total := sum_list (weight <$> seq 1 n) in
      Normal ((λ d, weight d / total) <$> seq 1 n)
  | RelativeRingSizes percentages => assertPortionsArray (percentages n) n
  end.

(** Modelled from the spec: radial partition; each ring starts where the
    previous one ends and takes its fraction of the remaining radius. *)
Fixpoint rings (y0 remaining : Qc) (fractions : list Qc) : list (Qc * Qc) :=
  match fractions with
  | [] => []
  | p :: ps => (y0, y0 + p * remaining) :: rings (y0 + p * remaining) remaining ps
  end.

(** Modelled from the spec: the ring-layout stage of [render()] of the
    sunburst chart (absent): [y0, y1] for the depths 1, 2, ... *)
Definition render (c : SunburstChart) (data : list (list string * Qc))
  : completion (list (Qc * Qc)) :=
  fractions ← ringFractions (_ringSizes c) (ringCount data);
  Normal (rings (innerRadius c) (outerRadius c - innerRadius c) fractions).
End Policy.

(** Modelled from the spec: thickness [y1 - y0] of the ring at
    [depth >= 1] of a layout produced by the sunburst chart (absent). *)
Definition thickness (layout : list (Qc * Qc)) (depth : nat) : option Qc :=
  (λ r, r.2 - r.1) <$> layout !! (depth - 1)%nat.

(** Modelled from the spec: the BadArgument failures of the ring-size
    validation (sunburst chart, absent). *)
Definition is_BadArgument {A} (r : completion A) : Prop :=
  ∃ msg, r = Throw (BadArgumentException msg).

(** Modelled from the spec: the fractions sum to 1 within the tolerance
    (check of the sunburst chart, absent). *)
Definition within_tolerance (tolerance : Qc) (l : list Qc) : Prop :=
  Qcabs (sum_list l - 1) ≤ tolerance.

(** Sample data: three complete rings. *)
Definition data3 : list (list string * Qc) :=
  [(["a"; "b"; "c"], 1); (["a"; "b"; "d"], 2); (["a"; "e"; "f"], Q2Qc 3)].

Definition chart3 : SunburstChart :=
  {| innerRadius := 0; outerRadius := Q2Qc 100; _ringSizes := DefaultRingSizes |}.

(** A sample decreasing weight for three rings: 3, 2, 1. *)
Definition countdown (d : nat) : Qc := Qc_of_nat (4 - d).

End Sunburst.

(** ** The ring layout in binary64

    The numbers of the host engine are IEEE 754 double precision values.
    This module repeats the validation and the radial partition of
    [Sunburst] on them; the sum of the fractions is accumulated from 0 in
    the order of the rings. *)
Module Binary64.
Local Open Scope float_scope.

(** The number [n] (below [2^53], held exactly). *)
Definition of_nat (n : nat) : float := PrimFloat.of_uint63 (Uint63.of_Z (Z.of_nat n)).

(** Modelled from the spec: the sum of the fractions, accumulated from 0 in
    the order of the rings ("floating accumulation"). *)
Definition sum (l : list float) : float := fold_left PrimFloat.add l 0.

(** Modelled from the spec: the fractions of the equal policy, [ringCount]
    times the quotient [1 / ringCount], rounded once. *)
Definition equal_portions (n : nat) : list float := repeat (1 / of_nat n) n.


(** Modelled from the spec: the percentage function of [equalRingSizes()]
    (sunburst chart, absent): an array of [ringCount] fractions
    [1 / ringCount]. *)
Definition equalRingSizes (ringCount : nat) : option (list float) :=
  Some (equal_portions ringCount).

(** Modelled from the spec: validation of what a percentage function
    returned ([None]: not an array), as [Sunburst.assertPortionsArray]: an
    array, of length [ringCount], whose sum is no farther from 1 than the
    tolerance. *)
Definition assertPortionsArray (tolerance : float) (relativeSizes : option (list float))
    (numberOfRings : nat) : completion (list float) :=
  match relativeSizes with
  | None =>
      Throw (BadArgumentException "relativeRingSizes function must return an array")
  | Some l =>
      if bool_decide (List.length l ≠ numberOfRings) then
        Throw (BadArgumentException "number of values must match number of rings")
      else if PrimFloat.ltb tolerance (PrimFloat.abs (sum l - 1)) then
        Throw (BadArgumentException "portions must add up to 1")
      else Normal l
  end.

(** Modelled from the spec: radial partition, as [Sunburst.rings]. *)
Fixpoint rings (y0 remaining : float) (fractions : list float) : list (float * float) :=
  match fractions with
  | [] => []
  | p :: ps => (y0, y0 + p * remaining) :: rings (y0 + p * remaining) remaining ps
  end.

(** Modelled from the spec: the ring-layout stage of [render()] of the
    sunburst chart (absent) under a relative policy, for a chart with the
    given radii and data with [ringCount] rings. *)
Definition render (tolerance innerRadius outerRadius : float)
    (percentages : nat → option (list float)) (ringCount : nat)
  : completion (list (float * float)) :=
  fractions ← assertPortionsArray tolerance (percentages ringCount) ringCount;
  Normal (rings innerRadius (outerRadius - innerRadius) fractions).

End Binary64.


(** ** Vocabulary of the statements *)

(** [filter instanceof Array && filter[0] instanceof Array && !filter.isFiltered]:
    the test of line 1018. *)
Definition is_wrapper (v : value) : bool :=
  match v with
  | VArr (VArr _ _ _ :: _) None _ => true
  | _ => false
  end.

(** An array whose sole element is itself an array and that carries no
    [isFiltered]. *)
Definition sole_array_wrapper (v : value) : bool :=
  match v with
  | VArr [VArr _ _ _] None _ => true
  | _ => false
  end.

(** [v.isFiltered] is a function. *)
Definition has_isFiltered (v : value) : bool :=
  match v with
  | VArr _ (Some _) _ => true
  | _ => false
  end.

Definition filterType_of (v : value) : option string :=
  match v with
  | VArr _ _ t => t
  | _ => None
  end.

(** Neither [null] nor [undefined]: property reads succeed. *)
Definition coercible (v : value) : bool :=
  match v with
  | VUndefined | VNull => false
  | _ => true
  end.

Section Acceptance.
Context `{Engine}.

(** [a <= b && a >= b] *)
Definition value_equal (a b : value) : bool := js_le a b && js_ge a b.

(** The filter [f] lets the datum [d] through: by its [isFiltered] predicate
    when it has one, by value equality when it has none. *)
Definition accepts (d f : value) : bool :=
  match f with
  | VArr _ (Some fn) _ => invoke fn f d
  | _ => value_equal f d
  end.

(** The looser reading: [f] has an [isFiltered] predicate accepting [d], or
    [f] is value-equal to [d] (whether or not it has a predicate). *)
Definition accepts_or_equal (d f : value) : bool :=
  match f with
  | VArr _ (Some fn) _ => invoke fn f d || value_equal f d
  | _ => value_equal f d
  end.

(** The call hands [dimension.filterFunction] a predicate that is the
    union of the filters. *)
Definition installs_union (call : dim_call) (fs : list value) : Prop :=
  ∃ p, call = FilterFunction p ∧ ∀ d, p d = Normal (existsb (accepts d) fs).

(** The comparator of [_computeOrderedGroups] does not ask for [b] to go
    before [a]. *)
Definition in_order (c : BaseMixin) (a b : kv) : Prop :=
  keeps (λ a b, ascending (_ordering c a) (_ordering c b)) a b.

(** [a <= b] holds of the ordering keys of the records [a] and [b]. *)
Definition key_le (c : BaseMixin) (a b : kv) : Prop :=
  js_le (_ordering c a) (_ordering c b) = true.

(** The relational comparison decides [a < b] (neither side converts to
    [NaN]). *)
Definition comparable (a b : value) : bool :=
  match lessThan a b with
  | Some _ => true
  | None => false
  end.

(** The keys [ks] are consistently ordered by the relational comparison:
    any two of them are comparable, [<=] holds between them one way round
    at least, and [<=] is transitive among them.  Numbers other than [NaN]
    are, and so are strings. *)
Definition consistent_keys (ks : list value) : bool :=
  forallb (λ a,
    forallb (λ b,
      comparable a b && (js_le a b || js_le b a)
      && forallb (λ c, implb (js_le a b && js_le b c) (js_le a c)) ks) ks) ks.
End Acceptance.

(** The names on which [member] is the lookup and call of the source: the
    accessors of its table and [dimension], a name that neither the class
    nor [Object.prototype] declares. *)
Definition accessor_names : list string :=
  ["group"; "anchor"; "root"; "svg"; "legend"; "commitHandler";
   "transitionDuration"; "chartID"; "anchorName"; "filters"; "filter";
   "hasFilter"; "ordering"; "filterHandler"; "hasFilterHandler";
   "removeFilterHandler"; "addFilterHandler"; "resetFilterHandler";
   "keyAccessor"; "valueAccessor"; "label"; "title"; "filterPrinter";
   "chartGroup"].

Definition member_modelled (a : string) : bool :=
  bool_decide (a ∈ "dimension" :: accessor_names).

(** ** Sample inputs *)

(** A chart with its anchor, dimension and group all configured. *)
Definition chart_ready : BaseMixin :=
  group_set (with_dimension (anchor_set chart0 "#chart") dimension0) {| all := [] |}.

(** An array whose first element is an array, followed by one more element:
    [[[1, 2], 3]]. *)
Definition two_element_wrapper : value :=
  plain_array [plain_array [num 1; num 2]; num 3].

(** A store holding one array of group records, at reference 7. *)
Definition groups_store : gmap nat (list kv) :=
  {[ 7%nat := [ {| key := VStr "b"; val := num 2 |};
                {| key := VStr "c"; val := num 1 |};
                {| key := VStr "a"; val := num 3 |} ] ]}.

(** A store whose array at reference 5 holds a record with the key [NaN]
    and a record with the key 1. *)
Definition NaN_store : gmap nat (list kv) :=
  {[ 5%nat := [ {| key := VNum NaN; val := num 1 |};
                {| key := num 1; val := num 2 |} ] ]}.

(** The percentage functions of the test suite. *)
Definition functionReturnsNonArray : nat → Sunburst.portions :=
  λ _, Sunburst.NotAnArray.
Definition tooManyPercentageValues : nat → Sunburst.portions :=
  λ _, Sunburst.Portions (replicate 4 (Q2Qc (1 # 10))).
Definition percentagesSumNot1 : nat → Sunburst.portions :=
  λ _, Sunburst.Portions (replicate 3 (Q2Qc (1 # 2))).
Definition specificPercentages : nat → Sunburst.portions :=
  λ _, Sunburst.Portions [Q2Qc (1 # 10); Q2Qc (3 # 10); Q2Qc (6 # 10)].

(** A tolerance of one part in ten thousand million. *)
Definition small_tolerance : Qc := Q2Qc (1 # 10000000000).

(** ** Further members of [BaseMixin] and of the box plot *)

(** [_mandatoryAttributes(list)] (lines 639-647), setter form. *)
Definition _mandatoryAttributes (c : BaseMixin) (l : list string) : BaseMixin :=
  {| _conf_dimension := _conf_dimension c; _group := _group c; _anchor := _anchor c;
     _root := _root c; _svg := _svg c; __dcFlag__ := __dcFlag__ c;
     _width := _width c; _height := _height c;
     _transitionDuration := _transitionDuration c;
     _mandatoryAttributesList := Some l; _legend := _legend c;
     _commitHandler := _commitHandler c; _ordering := _ordering c;
     _chartGroup := _chartGroup c;
     _filters := _filters c;
     _filterHandler := _filterHandler c; _hasFilterHandler := _hasFilterHandler c;
     _removeFilterHandler := _removeFilterHandler c;
     _addFilterHandler := _addFilterHandler c;
     _resetFilterHandler := _resetFilterHandler c; trace := trace c |}.

Section FilterSets.
Context `{Engine}.

(** No entry of the list is value-equal to a later one. *)
Fixpoint distinct_filters (fs : list value) : Prop :=
  match fs with
  | [] => True
  | f :: rest => Forall (λ g, value_equal f g = false) rest ∧ distinct_filters rest
  end.

(** Every handler of the chart is the default one. *)
Definition all_default_handlers (c : BaseMixin) : Prop :=
  default_handlers c ∧ _filterHandler c = _defaultFilterHandler.
End FilterSets.

(** The events that one completed [filter(v)] call adds. *)
Definition filtered_notification (v : value) : list event :=
  match v with
  | VUndefined => []
  | _ => [Dispatched "filtered" (Some v)]
  end.

(** ** Whiskers of the box plot (box-plot.ts, lines 19-39) *)
Module BoxPlot.
Local Open Scope float_scope.

(** The argument of a whisker function: the sample of one box, an array of
    numbers (IEEE 754 double precision, as the numbers of the host engine
    are), with the [quartiles] property that the box layout attaches to
    it. *)
Record box_sample := {
  sample : list float;
  quartiles : float * float * float
}.

(** [do { ++i; } while (d[i] < bound)]: [rest] holds [d[i], d[i+1], ...] for
    the index [i] just reached; past the end [d[i]] is [undefined] and the
    comparison is false, as it is for [NaN]. *)
Fixpoint scan_up (bound : float) (rest : list float) (i : Z) : Z :=
  match rest with
  | [] => i
  | x :: rest' => if PrimFloat.ltb x bound then scan_up bound rest' (i + 1) else i
  end.

(** [do { --j; } while (d[j] > bound)]: [rest] holds [d[j], d[j-1], ...]. *)
Fixpoint scan_down (bound : float) (rest : list float) (j : Z) : Z :=
  match rest with
  | [] => j
  | x :: rest' => if PrimFloat.ltb bound x then scan_down bound rest' (j - 1) else j
  end.

Definition defaultWhiskersIQR (k : float) (d : box_sample) : Z * Z :=
  let q1 := (quartiles d).1.1 in
  let q3 := (quartiles d).2 in
  let iqr := (q3 - q1) * k in
  (scan_up (q1 - iqr) (sample d) 0,
   scan_down (q3 + iqr) (reverse (sample d)) (Z.of_nat (List.length (sample d)) - 1)).

(** The fences that [defaultWhiskersIQR] compares against, rounded as the
    function computes them. *)
Definition lower_fence (k : float) (d : box_sample) : float :=
  (quartiles d).1.1 - ((quartiles d).2 - (quartiles d).1.1) * k.
Definition upper_fence (k : float) (d : box_sample) : float :=
  (quartiles d).2 + ((quartiles d).2 - (quartiles d).1.1) * k.

(** [d[m]] for an integer index. *)
Definition at_index (d : box_sample) (m : Z) : option float :=
  if (m <? 0)%Z then None else sample d !! Z.to_nat m.

(** [x <= y] holds. *)
Definition le (x y : float) : Prop := PrimFloat.leb x y = true.

(** A sample with one low and one high outlier for [k = 1.5]. *)
Definition sample7 : box_sample :=
  {| sample := [-50; 10; 11; 12; 13; 14; 90];
     quartiles := (10, 12, 14) |}.

(** The sample [-1.7, 0.1, 0.7, 1.3, 3.1] with its quartiles, each number
    the double nearest to the decimal. *)
Definition sample5 : box_sample :=
  {| sample := [-0x1.b333333333333p+0; 0x1.999999999999ap-4; 0x1.6666666666666p-1;
                0x1.4cccccccccccdp+0; 0x1.8cccccccccccdp+1];
     quartiles := (0x1.999999999999ap-4, 0x1.6666666666666p-1, 0x1.4cccccccccccdp+0) |}.
End BoxPlot.

(** ** Further sample inputs *)

(** A chart anchored at [#a], and the same with a bound dimension. *)
Definition chart_a : BaseMixin := anchor_set chart0 "#a".
Definition chart_bound : BaseMixin := with_dimension chart_a dimension0.


(** A chart with its group set whose mandatory attributes are [group],
    [legend] and [dimension], in this order. *)
Definition chart_three_mandatory : BaseMixin :=
  _mandatoryAttributes (group_set chart_a {| all := [] |}) ["group"; "legend"; "dimension"].

(** A chart with its group set whose only mandatory attribute is [group]. *)
Definition chart_group_only : BaseMixin :=
  _mandatoryAttributes (group_set chart_a {| all := [] |}) ["group"].

(* ====================================================================== *)
(** * Part II. Lemmas *)
(* ====================================================================== *)

(** ** Filtering *)

(** Case analysis on every conditional of the goal. *)
Ltac case_conditionals :=
  repeat match goal with
         | |- context [if ?b then _ else _] => destruct b
         end.

Section FilterLaws.
Context `{Engine}.

(** Value equality by [<=] and [>=] does not depend on the side. *)
Lemma value_equal_sym (a b : value) : value_equal a b = value_equal b a.
Proof.
  unfold value_equal, js_le, js_ge.
  destruct (lessThan a b) as [[]|], (lessThan b a) as [[]|]; reflexivity.
Qed.

(** Appending a self-equal value that matches no entry, then removing it,
    gives the list back. *)
Lemma remove_after_add (fs : list value) (v : value) :
  existsb (λ f, js_le v f && js_ge v f) fs = false →
  value_equal v v = true →
  _defaultRemoveFilterHandler (_defaultAddFilterHandler fs v) v = fs.
Proof.
  unfold _defaultAddFilterHandler. intros Hno Hself.
  induction fs as [|f fs IH]; simpl in *.
  - fold (value_equal v v). now rewrite Hself.
  - apply orb_false_elim in Hno as [Hf Hrest].
    fold (value_equal f v). rewrite value_equal_sym. unfold value_equal.
    rewrite Hf. f_equal. now apply IH.
Qed.

Lemma has_after_add (fs : list value) (v : value) :
  value_equal v v = true →
  _defaultHasFilterHandler (_defaultAddFilterHandler fs v) v = true.
Proof.
  unfold _defaultAddFilterHandler, _defaultHasFilterHandler. intros Hself.
  assert (Hlen : bool_decide (0 < length (fs ++ [v])) = true).
  { apply bool_decide_eq_true. rewrite length_app. simpl. lia. }
  assert (Hex : existsb (λ f, js_le v f && js_ge v f) (fs ++ [v]) = true).
  { rewrite existsb_app. simpl. fold (value_equal v v). rewrite Hself.
    now rewrite orb_true_r. }
  destruct v; assumption.
Qed.

(** Without a bound dimension [filter(v)] completes, returns the chart and
    stores the list computed by lines 1016-1035; the notification and the
    control updates leave the list, the handlers and the dimension alone. *)
Lemma filter_unbound (c : BaseMixin) (v : value) :
  _conf_dimension c = None →
  ∃ c', filter c (Some v) = Normal (c', This)
        ∧ _filters c' = nextFilters c v
        ∧ _hasFilterHandler c' = _hasFilterHandler c
        ∧ _addFilterHandler c' = _addFilterHandler c
        ∧ _removeFilterHandler c' = _removeFilterHandler c
        ∧ _resetFilterHandler c' = _resetFilterHandler c
        ∧ _conf_dimension c' = None.
Proof.
  intros Hdim. unfold filter, applyFilters. rewrite Hdim. simpl.
  eexists. split; [reflexivity|].
  unfold turnOnControls, turnOffControls, _invokeFilteredListener.
  destruct v; simpl;
    case_conditionals; simpl; auto 10.
Qed.

(** C2. With the default handlers and no bound dimension, [filter(null)]
    completes and leaves the filter list empty, whatever it held before, and
    a following [hasFilter()] answers false. *)
Theorem filter_null_resets (c : BaseMixin) :
  default_handlers c →
  _conf_dimension c = None →
  ∃ c', filter c (Some VNull) = Normal (c', This)
        ∧ filters c' = []
        ∧ hasFilter c' None = false.
Proof.
  intros (Hhas & _ & _ & Hreset) Hdim.
  destruct (filter_unbound c VNull Hdim) as (c' & Hrun & Hfs & Hh & _).
  exists c'. split; [exact Hrun|].
  assert (Hempty : _filters c' = []).
  { rewrite Hfs. unfold nextFilters. now rewrite Hreset. }
  split; [exact Hempty|].
  unfold hasFilter. rewrite Hh, Hhas, Hempty. reflexivity.
Qed.

(** One toggle of a value that is not a wrapper and not [null]. *)
Lemma nextFilters_unit (c : BaseMixin) (v : value) :
  is_wrapper v = false → v ≠ VNull →
  nextFilters c v = toggle c (_filters c) v.
Proof.
  intros Hw Hn. destruct v as [| | | | |elems p t]; try reflexivity; try congruence.
  destruct elems as [|[] ?], p; simpl in *; congruence.
Qed.

(** C3 (amended). With the default has/add/remove handlers and no bound
    dimension, for every value [v] that is value-equal to itself
    ([v <= v && v >= v]), is not a wrapper in the sense of line 1018 and is
    not reported by [hasFilter(v)], two calls [filter(v)] complete and the
    second restores the filter list held before the first. *)
Theorem toggle_twice_restores (c : BaseMixin) (v : value) :
  default_handlers c →
  _conf_dimension c = None →
  is_wrapper v = false →
  value_equal v v = true →
  hasFilter c (Some v) = false →
  ∃ c1 c2, filter c (Some v) = Normal (c1, This)
           ∧ filter c1 (Some v) = Normal (c2, This)
           ∧ filters c2 = filters c.
Proof.
  intros (Hhas & Hadd & Hrem & Hreset) Hdim Hw Hself Hnot.
  destruct (filter_unbound c v Hdim)
    as (c1 & Hrun1 & Hfs1 & Hh1 & Ha1 & Hr1 & Hs1 & Hd1).
  destruct (filter_unbound c1 v Hd1) as (c2 & Hrun2 & Hfs2 & _).
  exists c1, c2. split; [exact Hrun1|]. split; [exact Hrun2|].
  unfold filters. rewrite Hfs2.
  unfold hasFilter in Hnot. simpl in Hnot. rewrite Hhas in Hnot.
  assert (v = VNull ∨ v ≠ VNull) as [->|Hnn]
    by (destruct v; auto; right; congruence).
  - (* reset twice; the list was empty to begin with *)
    simpl. rewrite Hs1, Hreset. simpl in Hnot.
    apply bool_decide_eq_false in Hnot.
    destruct (_filters c); [reflexivity|simpl in Hnot; lia].
  - rewrite (nextFilters_unit c1 v Hw Hnn).
    rewrite (nextFilters_unit c v Hw Hnn) in Hfs1.
    unfold toggle in *. rewrite Hhas, Hadd, Hnot in Hfs1.
    rewrite Hh1, Hr1, Hhas, Hrem, Hfs1.
    rewrite (has_after_add _ _ Hself).
    apply remove_after_add; [|exact Hself].
    destruct v; try exact Hnot; try congruence.
    (* undefined: [hasFilter] reported an empty list *)
    simpl in Hnot. apply bool_decide_eq_false in Hnot.
    destruct (_filters c); [reflexivity|simpl in Hnot; lia].
Qed.

(** The dispatch of [filter], for an argument that is a value of its own.
    [filter()] returns the first entry of the filter list, or [null] when it
    is empty.  For an argument [v]: if [v] is an array whose first element
    is itself an array and whose [isFiltered] is absent, every element of
    [v[0]] is toggled in turn; any other [v] except [null] is toggled as one
    unit: removed by the remove handler when the has handler reports it,
    added by the add handler otherwise.  The call then hands that list to
    [applyFilters]; it throws only if [applyFilters] does, and otherwise
    returns the chart itself, holding the list [applyFilters] returned. *)
Lemma filter_dispatch (c : BaseMixin) :
  filter c None = Normal (c, Returned (hd VNull (_filters c)))
  ∧ ∀ v : value,
      (∀ inner p t rest ft,
          v = VArr (VArr inner p t :: rest) None ft →
          nextFilters c v = foldl (toggle c) (_filters c) inner)
      ∧ (is_wrapper v = false → v ≠ VNull →
          nextFilters c v =
            if _hasFilterHandler c (_filters c) v
            then _removeFilterHandler c (_filters c) v
            else _addFilterHandler c (_filters c) v)
      ∧ (∀ e, applyFilters c (nextFilters c v) = Throw e →
              filter c (Some v) = Throw e)
      ∧ (∀ c1 fs, applyFilters c (nextFilters c v) = Normal (c1, fs) →
              ∃ c', filter c (Some v) = Normal (c', This) ∧ filters c' = fs).
Proof.
  split.
  - unfold filter. destruct (_filters c); reflexivity.
  - intros v. repeat split.
    + intros inner p t rest ft ->. reflexivity.
    + intros Hw Hn. rewrite (nextFilters_unit c v Hw Hn). reflexivity.
    + intros e He. unfold filter. rewrite He. reflexivity.
    + intros c1 fs Hok. unfold filter. rewrite Hok. simpl.
      eexists. split; [reflexivity|].
      unfold filters, turnOnControls, turnOffControls, _invokeFilteredListener.
      destruct v; simpl;
        case_conditionals; reflexivity.
Qed.

(** C1 (the code at the failing inputs).  The test of line 1018 asks that
    the first element of the argument be an array, not that it be the only
    one.  So for every array without [isFiltered] whose first element is an
    array (other than the chart's own filter array), whatever follows that
    element, [filter] toggles the elements of the first array one after the
    other and drops the rest of the argument: on a chart without a bound
    dimension the call completes, returns the chart and leaves the list that
    these toggles produce.  The argument is not toggled as one unit. *)
Theorem filter_first_array_only
    (c : BaseMixin) (inner rest : list value)
    (p : option fnref) (t ft : option string) :
  _conf_dimension c = None →
  inner ≠ _filters c →
  ∃ c', filter c (Some (VArr (VArr inner p t :: rest) None ft)) = Normal (c', This)
        ∧ filters c' = foldl (toggle c) (_filters c) inner.
Proof.
  intros Hdim _.
  destruct (filter_unbound c (VArr (VArr inner p t :: rest) None ft) Hdim)
    as (c' & Hrun & Hfs & _).
  exists c'. split; [exact Hrun|]. exact Hfs.
Qed.

(** One visit of [forEach] over the chart's own filter array. *)
Lemma forEach_live_step (c : BaseMixin) (visits i : nat) (fs : list value) (f : value) :
  fs !! i = Some f →
  forEach_live c (S visits) i fs = forEach_live c visits (S i) (toggle c fs f).
Proof. intros Hf. simpl. now rewrite Hf. Qed.

(** Once the index has passed the end of the array and nothing is appended,
    the remaining visits find no element. *)
Lemma forEach_live_past_end (c : BaseMixin) (visits i : nat) (fs : list value) :
  (List.length fs ≤ i)%nat → forEach_live c visits i fs = fs.
Proof.
  revert i. induction visits as [|visits IH]; intros i Hi; [reflexivity|].
  simpl. rewrite (lookup_ge_None_2 fs i Hi). apply IH. lia.
Qed.

End FilterLaws.

(** ** The default filter handler *)

Section FilterHandlerLaws.
Context `{Engine}.

(** On filters whose properties can be read, the installed predicate never
    throws and accepts a datum exactly when some filter accepts it. *)
Lemma filterFunction_predicate_accepts (fs : list value) (d : value) :
  forallb coercible fs = true →
  filterFunction_predicate fs d = Normal (existsb (accepts d) fs).
Proof.
  induction fs as [|f fs IH]; intros Hco; [reflexivity|].
  simpl in Hco. apply andb_prop in Hco as [Hf Hfs].
  specialize (IH Hfs). simpl. unfold accepts at 1, value_equal.
  destruct f as [| | | | |elems [fn|] t]; simpl in *; try discriminate;
    rewrite IH; case_conditionals; reflexivity.
Qed.

(** C4 (the code at the failing input, and at every other without [null]
    or [undefined] entries).  On a filter list without [null] or
    [undefined] entries the default filter handler completes, makes exactly
    one call on the dimension and returns the filter list.  The call is [filter(null)] for
    the empty list; [filterExact(f)] for a single filter [f] without
    [isFiltered]; [filterRange(f)] for a single filter [f] with [isFiltered]
    and [filterType] ['RangedFilter']; and otherwise [filterFunction(p)]
    where [p] accepts a datum iff some filter either has an [isFiltered]
    predicate that accepts it, or has no such predicate and is value-equal
    to it.  A filter with an [isFiltered] predicate that rejects a datum
    does not let it through by being value-equal to it, as the loop of the
    [filterHandler] documentation (lines 1113-1122) would. *)
Theorem defaultFilterHandler_dispatch (dimension : MinimalCFDimension) (fs : list value) :
  forallb coercible fs = true →
  ∃ call,
    _defaultFilterHandler dimension fs = Normal (called dimension call, Some fs)
    ∧ (fs = [] → call = Filter VNull)
    ∧ (∀ f, fs = [f] → has_isFiltered f = false → call = FilterExact f)
    ∧ (∀ f, fs = [f] → has_isFiltered f = true →
            filterType_of f = Some "RangedFilter" → call = FilterRange f)
    ∧ (∀ f, fs = [f] → has_isFiltered f = true →
            filterType_of f ≠ Some "RangedFilter" → installs_union call fs)
    ∧ ((2 ≤ List.length fs)%nat → installs_union call fs).
Proof.
  intros Hco.
  assert (Hunion : installs_union (FilterFunction (filterFunction_predicate fs)) fs).
  { eexists. split; [reflexivity|]. intros d.
    now apply filterFunction_predicate_accepts. }
  destruct fs as [|f [|g fs]].
  - exists (Filter VNull). repeat split; try discriminate. simpl. lia.
  - simpl in Hco. rewrite andb_true_r in Hco.
    destruct f as [| | | | |elems [fn|] t]; try discriminate.
    1-3: eexists; split; [reflexivity|];
         repeat split; try discriminate; simpl; try lia;
         intros f Hf; injection Hf as <-; try discriminate; reflexivity.
    + (* a filter object *)
      destruct (decide (t = Some "RangedFilter")) as [Ht|Ht].
      * exists (FilterRange (VArr elems (Some fn) t)).
        split; [unfold _defaultFilterHandler; simpl;
                now rewrite (bool_decide_eq_true_2 _ Ht)|].
        repeat split; try discriminate; simpl; try lia;
          intros f Hf; injection Hf as <-; simpl; intros; congruence.
      * exists (FilterFunction (filterFunction_predicate [VArr elems (Some fn) t])).
        split; [unfold _defaultFilterHandler; simpl;
                now rewrite (bool_decide_eq_false_2 _ Ht)|].
        repeat split; try discriminate; simpl; try lia;
          intros f Hf; injection Hf as <-; simpl; intros; try congruence.
        exact Hunion.
    + eexists; split; [reflexivity|].
      repeat split; try discriminate; simpl; try lia;
        intros f Hf; injection Hf as <-; try discriminate; reflexivity.
  - exists (FilterFunction (filterFunction_predicate (f :: g :: fs))).
    split; [reflexivity|].
    repeat split; try discriminate. intros _. exact Hunion.
Qed.

End FilterHandlerLaws.

(** ** Mandatory attributes at render time *)

Lemma anchorName_forget_size (c : BaseMixin) (e : event) :
  anchorName (emit (forget_size c) e) = anchorName c.
Proof. reflexivity. Qed.

(** C5 (the code at the failing input, and at every other).  A chart of
    class [BaseMixin] whose mandatory attribute list is the default
    [['dimension', 'group']] has no member named [dimension], so [render()]
    throws the [InvalidStateException] for [dimension], naming the anchor,
    whether or not [_conf.dimension] and the group are set. *)
Theorem render_default_mandatory_throws (c : BaseMixin) :
  _mandatoryAttributesList c = Some ["dimension"; "group"] →
  render c =
    Throw (InvalidStateException
             ("Mandatory attribute chart.dimension is missing on chart[#"
              +:+ anchorName c +:+ "]")).
Proof.
  intros Hlist. unfold render. simpl. rewrite Hlist. reflexivity.
Qed.

(** With the group set, the [group] attribute passes the check; without it
    the check throws, naming the attribute and the anchor. *)
Lemma checkForMandatoryAttributes_group (c : BaseMixin) :
  checkForMandatoryAttributes c "group" =
    match _group c with
    | Some _ => Normal tt
    | None => Throw (InvalidStateException (missing_message c "group"))
    end.
Proof.
  unfold checkForMandatoryAttributes. simpl.
  destruct (_group c); reflexivity.
Qed.

(** ** Commit handlers *)

(** C6 (the code at the failing input, and at every other).
    [renderGroup()] calls a configured commit handler with the flag [false],
    the value [redrawGroup()] passes, and with an error-first callback; the
    callback logs a reported error and otherwise calls [renderAll] on the
    chart group, which throws a [TypeError] while the chart has none (before
    [anchor]).  [renderGroup()] returns the chart unless the handler
    throws. *)
Theorem renderGroup_passes_false (c : BaseMixin) (handler : commit_handler) :
  _commitHandler c = Some handler →
  renderGroup c
  = (w ← handler false (renderGroup_callback c) (trace c);
     Normal (with_trace c w, This))
  ∧ ∀ error result w,
      renderGroup_callback c error result w
      = if truthy error then Normal (w ++ [ConsoleLog error])
        else if _chartGroup c then Normal (w ++ [RenderAll])
        else Throw TypeError.
Proof.
  intros Hh. unfold renderGroup. rewrite Hh. split; reflexivity.
Qed.

Lemma redrawGroup_commit (c : BaseMixin) (handler : commit_handler) :
  _commitHandler c = Some handler →
  redrawGroup c
  = (w ← handler false (redrawGroup_callback c) (trace c);
     Normal (with_trace c w, This))
  ∧ ∀ error result w,
      redrawGroup_callback c error result w
      = if truthy error then Normal (w ++ [ConsoleLog error])
        else if _chartGroup c then Normal (w ++ [RedrawAll])
        else Throw TypeError.
Proof.
  intros Hh. unfold redrawGroup. rewrite Hh. split; reflexivity.
Qed.

(** Without a commit handler the chart group is called directly; a chart
    that has no group yet throws a [TypeError]. *)
Lemma group_calls_without_handler (c : BaseMixin) :
  _commitHandler c = None →
  redrawGroup c
  = (if _chartGroup c then Normal (with_trace c (trace c ++ [RedrawAll]), This)
     else Throw TypeError)
  ∧ renderGroup c
    = (if _chartGroup c then Normal (with_trace c (trace c ++ [RenderAll]), This)
       else Throw TypeError).
Proof.
  intros Hh. unfold redrawGroup, renderGroup, chartGroup_call. rewrite Hh.
  destruct (_chartGroup c); split; reflexivity.
Qed.

(** A handler that reports an error once: the error is logged and the group
    is neither redrawn nor rendered, whether or not the chart has one. *)
Lemma commit_error_gates_group (c : BaseMixin) (error : value) :
  truthy error = true →
  _commitHandler c = Some (λ _ callback w, callback error VUndefined w) →
  redrawGroup c = Normal (with_trace c (trace c ++ [ConsoleLog error]), This)
  ∧ renderGroup c = Normal (with_trace c (trace c ++ [ConsoleLog error]), This).
Proof.
  intros Herr Hh.
  unfold redrawGroup, renderGroup, redrawGroup_callback, renderGroup_callback.
  rewrite Hh. simpl. rewrite Herr. split; reflexivity.
Qed.

(** A handler that reports success at once: on a chart with a group the
    group is redrawn or rendered; on a chart without one the callback, and
    with it the call, throws a [TypeError]. *)
Lemma commit_success_reaches_group (c : BaseMixin) :
  _commitHandler c = Some (λ _ callback w, callback VNull VUndefined w) →
  redrawGroup c
  = (if _chartGroup c then Normal (with_trace c (trace c ++ [RedrawAll]), This)
     else Throw TypeError)
  ∧ renderGroup c
    = (if _chartGroup c then Normal (with_trace c (trace c ++ [RenderAll]), This)
       else Throw TypeError).
Proof.
  intros Hh.
  unfold redrawGroup, renderGroup, redrawGroup_callback, renderGroup_callback,
    chartGroup_call.
  rewrite Hh. simpl. destruct (_chartGroup c); split; reflexivity.
Qed.

(** ** Ordered groups *)

Section SortLaws.
Context {A : Type} (comparefn : A → A → number).

Lemma sort_insert_Permutation (x : A) (l : list A) :
  sort_insert comparefn x l ≡ₚ x :: l.
Proof.
  induction l as [|y l IH]; simpl; [reflexivity|].
  destruct (positive_result (comparefn x y)); [|reflexivity].
  rewrite IH. apply Permutation_swap.
Qed.

Lemma Array_sort_Permutation (l : list A) : Array_sort comparefn l ≡ₚ l.
Proof.
  induction l as [|x l IH]; simpl; [reflexivity|].
  rewrite sort_insert_Permutation. now rewrite IH.
Qed.

(** The comparator never asks for both orders of a pair. *)
Hypothesis keeps_total : ∀ a b, keeps comparefn a b ∨ keeps comparefn b a.

Lemma sort_insert_HdRel (a x : A) (l : list A) :
  keeps comparefn a x → HdRel (keeps comparefn) a l →
  HdRel (keeps comparefn) a (sort_insert comparefn x l).
Proof.
  intros Hax Hl. destruct l as [|y l]; simpl.
  - now constructor.
  - destruct (positive_result (comparefn x y)); constructor; [|exact Hax].
    now inversion Hl.
Qed.

Lemma sort_insert_Sorted (x : A) (l : list A) :
  Sorted (keeps comparefn) l → Sorted (keeps comparefn) (sort_insert comparefn x l).
Proof.
  induction 1 as [|y l Hl IH Hy]; simpl.
  - repeat constructor.
  - destruct (positive_result (comparefn x y)) eqn:Hxy.
    + constructor; [exact IH|].
      apply sort_insert_HdRel; [|exact Hy].
      destruct (keeps_total x y) as [Hk|Hk]; [|exact Hk].
      unfold keeps in Hk. congruence.
    + constructor; [now constructor|]. constructor. exact Hxy.
Qed.

Lemma Array_sort_Sorted (l : list A) : Sorted (keeps comparefn) (Array_sort comparefn l).
Proof.
  induction l as [|x l IH]; simpl; [constructor|].
  now apply sort_insert_Sorted.
Qed.
End SortLaws.

(** A list whose neighbours are related is related throughout when the
    relation is transitive among its elements. *)
Lemma Sorted_StronglySorted_among {A} (R : A → A → Prop) (l : list A) :
  (∀ a b c, a ∈ l → b ∈ l → c ∈ l → R a b → R b c → R a c) →
  Sorted R l → StronglySorted R l.
Proof.
  intros Htrans Hsorted.
  induction Hsorted as [|x l Hl IH Hx]; [constructor|].
  assert (Hss : StronglySorted R l).
  { apply IH. intros a b c Ha Hb Hc. apply Htrans; now right. }
  constructor; [exact Hss|].
  destruct Hx as [|y l Hxy]; [constructor|].
  apply StronglySorted_inv in Hss as [_ Hy].
  constructor; [exact Hxy|].
  rewrite Forall_forall in Hy |- *. intros z Hz.
  apply (Htrans x y z); [left|right; left|right; right; exact Hz|exact Hxy|now apply Hy].
Qed.

Lemma Sorted_impl_among {A} (R S : A → A → Prop) (l : list A) :
  (∀ a b, a ∈ l → b ∈ l → R a b → S a b) →
  Sorted R l → Sorted S l.
Proof.
  intros Himpl Hsorted.
  induction Hsorted as [|x l Hl IH Hx]; [constructor|].
  constructor.
  - apply IH. intros a b Ha Hb. apply Himpl; now right.
  - destruct Hx as [|y l Hxy]; constructor.
    apply Himpl; [left|right; left|exact Hxy].
Qed.

Section OrderingLaws.
Context `{Engine}.

(** [ascending] is positive for at most one order of a pair. *)
Lemma ascending_total (a b : value) :
  positive_result (ascending a b) = false ∨ positive_result (ascending b a) = false.
Proof.
  unfold ascending, js_lt, js_gt, js_ge.
  destruct (lessThan a b) as [[]|], (lessThan b a) as [[]|]; simpl; auto.
Qed.

(** What [consistent_keys] says of the keys. *)
Lemma consistent_keys_spec (ks : list value) :
  consistent_keys ks = true →
  ∀ a b, a ∈ ks → b ∈ ks →
    comparable a b = true
    ∧ (js_le a b = true ∨ js_le b a = true)
    ∧ ∀ c, c ∈ ks → js_le a b = true → js_le b c = true → js_le a c = true.
Proof.
  unfold consistent_keys. intros Hall a b Ha Hb.
  rewrite forallb_forall in Hall.
  specialize (Hall a (proj1 (list_elem_of_In _ _) Ha)).
  rewrite forallb_forall in Hall.
  specialize (Hall b (proj1 (list_elem_of_In _ _) Hb)).
  apply andb_prop in Hall as [Hab Htrans]. apply andb_prop in Hab as [Hcmp Htot].
  split; [exact Hcmp|]. split; [now apply orb_prop in Htot|].
  intros c Hc Hle1 Hle2.
  rewrite forallb_forall in Htrans.
  specialize (Htrans c (proj1 (list_elem_of_In _ _) Hc)).
  now rewrite Hle1, Hle2 in Htrans.
Qed.

(** Where [<] decides a pair of keys both ways round and [<=] holds one way
    round at least, the comparator lets [a] stay in front of [b] exactly
    when [a <= b]. *)
Lemma in_order_key_le (c : BaseMixin) (a b : kv) :
  comparable (_ordering c a) (_ordering c b) = true →
  comparable (_ordering c b) (_ordering c a) = true →
  js_le (_ordering c a) (_ordering c b) = true
  ∨ js_le (_ordering c b) (_ordering c a) = true →
  in_order c a b ↔ key_le c a b.
Proof.
  unfold in_order, key_le, keeps, comparable, ascending, js_lt, js_gt, js_ge, js_le.
  destruct (lessThan (_ordering c a) (_ordering c b)) as [[]|],
    (lessThan (_ordering c b) (_ordering c a)) as [[]|];
    simpl; intros Hab Hba [Hle|Hle]; split; intros Hord;
    try reflexivity; try discriminate.
Qed.

(** C10 (amended).  Given the array of records stored at [data], the call
    returns a reference to a new array (not allocated before), which holds
    a permutation of the input; the array at [data] is left as it was, as
    is every other array.  When the ordering keys of the records are
    consistently ordered by the relational comparison (any two comparable,
    [<=] total and transitive among them), the new array is sorted
    ascending by key: the key of every record is [<=] the key of every
    record behind it. *)
Theorem computeOrderedGroups_sorted_copy
    (c : BaseMixin) (h : gmap nat (list kv)) (data : nat) (l : list kv) :
  h !! data = Some l →
  ∃ (r : nat) (sorted : list kv),
    _computeOrderedGroups c h data = Some (<[r := sorted]> h, r)
    ∧ h !! r = None
    ∧ sorted ≡ₚ l
    ∧ (consistent_keys (_ordering c <$> l) = true → StronglySorted (key_le c) sorted)
    ∧ (<[r := sorted]> h) !! data = Some l
    ∧ ∀ r', r' ≠ r → (<[r := sorted]> h) !! r' = h !! r'.
Proof.
  intros Hdata.
  set (cmp := λ a b : kv, ascending (_ordering c a) (_ordering c b)).
  assert (Hfresh : h !! fresh (dom h) = None).
  { apply not_elem_of_dom. apply is_fresh. }
  assert (Hperm : Array_sort cmp l ≡ₚ l) by apply Array_sort_Permutation.
  exists (fresh (dom h)), (Array_sort cmp l).
  split; [|split; [exact Hfresh|split; [exact Hperm|split; [|split]]]].
  - unfold _computeOrderedGroups, Array_from, sort_in_place.
    rewrite Hdata. simpl. rewrite lookup_insert_eq. simpl.
    now rewrite insert_insert_eq.
  - intros Hkeys.
    pose proof (consistent_keys_spec _ Hkeys) as Hspec.
    assert (Hkey : ∀ a, a ∈ Array_sort cmp l → _ordering c a ∈ _ordering c <$> l).
    { intros a Ha. rewrite Hperm in Ha. now apply list_elem_of_fmap_2. }
    apply Sorted_StronglySorted_among.
    + intros a b d Ha Hb Hd Hab Hbd.
      destruct (Hspec _ _ (Hkey a Ha) (Hkey b Hb)) as (_ & _ & Htrans).
      exact (Htrans _ (Hkey d Hd) Hab Hbd).
    + apply (Sorted_impl_among (in_order c)).
      * intros a b Ha Hb Hord.
        destruct (Hspec _ _ (Hkey a Ha) (Hkey b Hb)) as (Hab & Htot & _).
        destruct (Hspec _ _ (Hkey b Hb) (Hkey a Ha)) as (Hba & _ & _).
        now apply (in_order_key_le c a b Hab Hba Htot).
      * apply (Array_sort_Sorted cmp). intros a b. apply ascending_total.
  - rewrite lookup_insert_ne; [exact Hdata|]. congruence.
  - intros r' Hne. now rewrite lookup_insert_ne.
Qed.

End OrderingLaws.

(** ** Sunburst ring sizing *)

Section SunburstLaws.
Local Open Scope Qc_scope.
Variable weight : nat → Qc.
Variable tolerance : Qc.







Lemma ringCount_complete (n : nat) (data : list (list string * Qc)) :
  Sunburst.complete_rings n data → Sunburst.ringCount data = n.
Proof.
  intros [Hne Hall].
  assert (Hgen : Sunburst.ringCount data = match data with [] => 0%nat | _ => n end).
  { clear Hne. unfold Sunburst.ringCount.
    induction Hall as [|r rest Hr Hrest IH]; [reflexivity|].
    rewrite fmap_cons. simpl foldr. rewrite IH, Hr.
    destruct rest; lia. }
  rewrite Hgen. destruct data; congruence.
Qed.

(** C7.  Configuring a relative ring-size policy never fails, whatever the
    percentage function; [render()] then throws a BadArgument error exactly
    when the function's result for the ring count is not an array, is an
    array of another length than the ring count, or is an array whose sum is
    farther from 1 than the tolerance, and completes otherwise; and once the
    default policy is configured again [render()] completes. *)
Theorem relativeRingSizes_validation
    (c : Sunburst.SunburstChart) (percentages : nat → Sunburst.portions)
    (data : list (list string * Qc)) :
  ∃ c',
    Sunburst.ringSizes c (Sunburst.relativeRingSizes percentages) = Normal c'
    ∧ (Sunburst.is_BadArgument (Sunburst.render weight tolerance c' data)
       ↔ percentages (Sunburst.ringCount data) = Sunburst.NotAnArray
         ∨ (∃ l, percentages (Sunburst.ringCount data) = Sunburst.Portions l
                 ∧ List.length l ≠ Sunburst.ringCount data)
         ∨ (∃ l, percentages (Sunburst.ringCount data) = Sunburst.Portions l
                 ∧ ¬ Sunburst.within_tolerance tolerance l))
    ∧ (¬ Sunburst.is_BadArgument (Sunburst.render weight tolerance c' data)
       → ∃ layout, Sunburst.render weight tolerance c' data = Normal layout)
    ∧ ∃ c'',
        Sunburst.ringSizes c' Sunburst.defaultRingSizes = Normal c''
        ∧ ∃ layout, Sunburst.render weight tolerance c'' data = Normal layout.
Proof.
  eexists. split; [reflexivity|].
  unfold Sunburst.render, Sunburst.ringFractions, Sunburst.assertPortionsArray,
    Sunburst.is_BadArgument, Sunburst.within_tolerance. simpl.
  destruct (percentages (Sunburst.ringCount data)) as [|l] eqn:Hp.
  - simpl. repeat split.
    + intros _. now left.
    + intros _. eexists. reflexivity.
    + intros Hno. exfalso. apply Hno. eexists. reflexivity.
    + eexists. split; [reflexivity|]. eexists. reflexivity.
  - destruct (bool_decide (List.length l ≠ Sunburst.ringCount data)) eqn:Hlen.
    { apply bool_decide_eq_true in Hlen. simpl. repeat split.
      - intros _. right. left. exists l. now split.
      - intros _. eexists. reflexivity.
      - intros Hno. exfalso. apply Hno. eexists. reflexivity.
      - eexists. split; [reflexivity|]. eexists. reflexivity. }
    apply bool_decide_eq_false in Hlen.
    destruct (bool_decide (tolerance < Qcabs (Sunburst.sum_list l - 1))) eqn:Hsum.
    { apply bool_decide_eq_true in Hsum. simpl. repeat split.
      - intros _. right. right. exists l. split; [reflexivity|].
        now apply Qclt_nge.
      - intros _. eexists. reflexivity.
      - intros Hno. exfalso. apply Hno. eexists. reflexivity.
      - eexists. split; [reflexivity|]. eexists. reflexivity. }
    apply bool_decide_eq_false in Hsum. simpl. repeat split.
    + intros [msg Hthrow]. discriminate.
    + intros [Hna|[(l' & Hl' & Hbad)|(l' & Hl' & Hbad)]].
      * discriminate.
      * injection Hl' as <-. contradiction.
      * injection Hl' as <-. exfalso. apply Hbad. now apply Qcle_ngt.
    + intros _. eexists. reflexivity.
    + eexists. split; [reflexivity|]. eexists. reflexivity.
Qed.


End SunburstLaws.

(** ** The equal policy in binary64 *)

Section Binary64Laws.
Local Open Scope float_scope.

(** The order of the floating-point numbers, on their specification. *)
Ltac compare_cases :=
  repeat match goal with
         | |- context [Z.compare ?a ?b] => destruct (Z.compare_spec a b)
         | |- context [Pos.compare_cont Eq ?a ?b] =>
             change (Pos.compare_cont Eq a b) with (Pos.compare a b);
             destruct (Pos.compare_spec a b)
         end.

Lemma SFleb_SFltb_trans (x y z : spec_float) :
  SFleb x y = true → SFltb y z = true → SFltb x z = true.
Proof.
  unfold SFleb, SFltb, SFcompare.
  destruct x as [[]|[]| |[] mx ex], y as [[]|[]| |[] my ey], z as [[]|[]| |[] mz ez];
    simpl; try discriminate; try reflexivity; try congruence;
    compare_cases; simpl; try discriminate; try reflexivity; try congruence; try lia.
Qed.

Lemma SFltb_SFleb_trans (x y z : spec_float) :
  SFltb x y = true → SFleb y z = true → SFltb x z = true.
Proof.
  unfold SFleb, SFltb, SFcompare.
  destruct x as [[]|[]| |[] mx ex], y as [[]|[]| |[] my ey], z as [[]|[]| |[] mz ez];
    simpl; try discriminate; try reflexivity; try congruence;
    compare_cases; simpl; try discriminate; try reflexivity; try congruence; try lia.
Qed.

(** [x <= y] and [y < z] give [x < z]; [x < y] and [y <= z] give [x < z]. *)
Lemma leb_ltb_trans (x y z : float) :
  PrimFloat.leb x y = true → PrimFloat.ltb y z = true → PrimFloat.ltb x z = true.
Proof. rewrite !leb_spec, !ltb_spec. apply SFleb_SFltb_trans. Qed.

Lemma ltb_leb_trans (x y z : float) :
  PrimFloat.ltb x y = true → PrimFloat.leb y z = true → PrimFloat.ltb x z = true.
Proof. rewrite !leb_spec, !ltb_spec. apply SFltb_SFleb_trans. Qed.





End Binary64Laws.


(** ** The statements at concrete inputs *)

(** Witness of C2: a chart holding two filters. *)
Lemma filter_null_resets_witness :
  ∃ c', filter (chart_with [num 1; VStr "a"]) (Some VNull) = Normal (c', This)
        ∧ filters c' = []
        ∧ hasFilter c' None = false.
Proof.
  apply (@filter_null_resets es_engine (chart_with [num 1; VStr "a"])).
  - repeat split.
  - reflexivity.
Defined.

(** Witness of C3 (amended): toggling ["a"] on a chart that holds [1]. *)
Lemma toggle_twice_restores_witness :
  ∃ c1 c2, filter (chart_with [num 1]) (Some (VStr "a")) = Normal (c1, This)
           ∧ filter c1 (Some (VStr "a")) = Normal (c2, This)
           ∧ filters c2 = [num 1].
Proof.
  apply (@toggle_twice_restores es_engine (chart_with [num 1]) (VStr "a")).
  - repeat split.
  - reflexivity.
  - reflexivity.
  - vm_compute. reflexivity.
  - vm_compute. reflexivity.
Defined.

(** A hierarchy path, as the sunburst chart toggles it on a click: arrays
    compare by their comma-joined elements, so the second click removes it. *)
Example toggle_twice_path :
  ∃ c1 c2,
    filter chart0 (Some (plain_array [VStr "US"; VStr "East"; VStr "Ontario"]))
      = Normal (c1, This)
    ∧ filters c1 = [plain_array [VStr "US"; VStr "East"; VStr "Ontario"]]
    ∧ filter c1 (Some (plain_array [VStr "US"; VStr "East"; VStr "Ontario"]))
      = Normal (c2, This)
    ∧ filters c2 = []
    ∧ filter c2 None = Normal (c2, Returned VNull).
Proof.
  eexists _, _. split; [reflexivity|]. split; [reflexivity|].
  split; [reflexivity|]. split; reflexivity.
Qed.

(** Counterexample to C3 as stated: [NaN] is not in the (empty) filter list
    of a fresh chart, yet two calls [filter(NaN)] leave [[NaN, NaN]]. *)
Lemma toggle_twice_NaN_counterexample :
  @default_handlers es_engine chart0
  ∧ _conf_dimension chart0 = None
  ∧ hasFilter chart0 (Some (VNum NaN)) = false
  ∧ ∃ c1 c2, filter chart0 (Some (VNum NaN)) = Normal (c1, This)
             ∧ filter c1 (Some (VNum NaN)) = Normal (c2, This)
             ∧ filters c2 = [VNum NaN; VNum NaN]
             ∧ filters c2 ≠ filters chart0.
Proof.
  split; [repeat split|]. split; [reflexivity|]. split; [reflexivity|].
  eexists _, _. split; [reflexivity|]. split; [reflexivity|].
  split; [reflexivity|]. discriminate.
Qed.

(** Why wrappers are left out of C3 (amended): toggling [[["a", "c"]]] twice
    on a chart holding ["c", "a"] gives the same entries in another order. *)
Lemma toggle_twice_wrapper_reorders :
  hasFilter (chart_with [VStr "c"; VStr "a"])
    (Some (plain_array [plain_array [VStr "a"; VStr "c"]])) = false
  ∧ ∃ c1 c2,
      filter (chart_with [VStr "c"; VStr "a"])
        (Some (plain_array [plain_array [VStr "a"; VStr "c"]])) = Normal (c1, This)
      ∧ filter c1 (Some (plain_array [plain_array [VStr "a"; VStr "c"]])) = Normal (c2, This)
      ∧ filters c2 = [VStr "a"; VStr "c"].
Proof.
  split; [vm_compute; reflexivity|].
  eexists _, _. split; [reflexivity|]. split; [reflexivity|]. reflexivity.
Qed.

(** Witness of C1: the argument [[[1, 2], 3]] on a fresh chart.  It is not
    an array whose sole element is an array, and toggling it as one unit
    would store it as a filter; the call stores 1 and 2 and drops 3. *)
Lemma filter_first_array_only_witness :
  sole_array_wrapper two_element_wrapper = false
  ∧ toggle chart0 (_filters chart0) two_element_wrapper = [two_element_wrapper]
  ∧ ∃ c', filter chart0 (Some two_element_wrapper) = Normal (c', This)
          ∧ filters c' = [num 1; num 2].
Proof.
  split; [reflexivity|]. split; [reflexivity|].
  apply (filter_first_array_only chart0 [num 1; num 2] [num 3] None None None).
  - reflexivity.
  - discriminate.
Defined.

(** The sole-array form on the same chart toggles the same two values. *)
Example filter_sole_array_wrapper :
  ∃ c', filter chart0 (Some (plain_array [plain_array [num 1; num 2]]))
        = Normal (c', This)
        ∧ filters c' = [num 1; num 2].
Proof. eexists. split; reflexivity. Qed.

(** [chart.filter([chart.filters()])] on a chart holding 1, 2 and 3:
    [forEach] walks the array that [splice] shortens under it, so 2 is
    never visited and stays; a copy of the array, passed the same way,
    removes all three. *)
Example nextFilters_own_skips :
  nextFilters_own (chart_with [num 1; num 2; num 3]) = [num 2]
  ∧ nextFilters (chart_with [num 1; num 2; num 3])
      (plain_array [plain_array [num 1; num 2; num 3]]) = [].
Proof. split; vm_compute; reflexivity. Qed.

(** Witness of C4: the single filter [[10]] with the predicate
    [d => d > 10] is value-equal to the datum 10
    ([[10] <= 10 && [10] >= 10]), so by the loop of the [filterHandler]
    documentation it lets 10 through; the predicate that the handler
    installs rejects 10. *)
Lemma defaultFilterHandler_dispatch_witness :
  @value_equal es_engine (above (num 10)) (num 10) = true
  ∧ existsb (@accepts_or_equal es_engine (num 10)) [above (num 10)] = true
  ∧ ∃ p, @_defaultFilterHandler es_engine dimension0 [above (num 10)]
           = Normal (called dimension0 (FilterFunction p), Some [above (num 10)])
         ∧ p (num 10) = Normal false.
Proof.
  split; [vm_compute; reflexivity|]. split; [vm_compute; reflexivity|].
  destruct (@defaultFilterHandler_dispatch es_engine dimension0
              [above (num 10)] eq_refl)
    as (call & Hrun & _ & _ & _ & Hfn & _).
  destruct (Hfn (above (num 10)) eq_refl eq_refl) as (p & Hcall & Hp);
    [discriminate|].
  exists p. split.
  - rewrite Hrun, Hcall. reflexivity.
  - rewrite Hp. vm_compute. reflexivity.
Defined.

(** A single range filter is handed to [filterRange]. *)
Example defaultFilterHandler_range :
  @_defaultFilterHandler es_engine dimension0 [RangedFilter (num 1) (num 5)]
  = Normal (called dimension0 (FilterRange (RangedFilter (num 1) (num 5))),
            Some [RangedFilter (num 1) (num 5)]).
Proof. reflexivity. Qed.

(** Why [null] and [undefined] entries are left out of C4: the read of
    [filters[0].isFiltered] throws. *)
Lemma defaultFilterHandler_undefined_throws :
  @_defaultFilterHandler es_engine dimension0 [VUndefined] = Throw TypeError.
Proof. reflexivity. Qed.

(** Witness of C5: with dimension, group and anchor configured, [render()]
    still throws, for want of a member [dimension]. *)
Lemma render_default_mandatory_throws_witness :
  is_Some (_conf_dimension chart_ready)
  ∧ is_Some (_group chart_ready)
  ∧ render chart_ready =
      Throw (InvalidStateException
               "Mandatory attribute chart.dimension is missing on chart[#chart]").
Proof.
  split; [eexists; reflexivity|]. split; [eexists; reflexivity|].
  exact (render_default_mandatory_throws chart_ready eq_refl).
Defined.

(** Witness of C6: on a chart anchored at [#a], a handler that records its
    flag and reports success sees [false] from [renderGroup()], and the
    group is then rendered. *)
Lemma renderGroup_passes_false_witness :
  renderGroup (commitHandler_set chart_a probe_commit)
  = Normal (with_trace (commitHandler_set chart_a probe_commit)
              [Dispatched "commit" (Some (VBool false)); RenderAll], This).
Proof.
  exact (proj1 (renderGroup_passes_false
                  (commitHandler_set chart_a probe_commit) probe_commit eq_refl)).
Defined.

(** [redrawGroup()] on the same chart passes the same flag. *)
Example redrawGroup_passes_false :
  redrawGroup (commitHandler_set chart_a probe_commit)
  = Normal (with_trace (commitHandler_set chart_a probe_commit)
              [Dispatched "commit" (Some (VBool false)); RedrawAll], This).
Proof. reflexivity. Qed.

(** A chart that was never anchored has no chart group: [renderGroup()]
    throws, with or without a handler that reports success; a handler that
    reports an error is logged. *)
Example renderGroup_unanchored :
  renderGroup chart0 = Throw TypeError
  ∧ renderGroup (commitHandler_set chart0 probe_commit) = Throw TypeError
  ∧ ∃ c', renderGroup (commitHandler_set chart0 failing_commit) = Normal (c', This)
          ∧ trace c' = [ConsoleLog (VStr "boom")].
Proof.
  split; [reflexivity|]. split; [reflexivity|].
  eexists. split; reflexivity.
Qed.

(** Witness of C10 (amended): the array at reference 7 of the sample store,
    whose keys are the strings b, c, a. *)
Lemma computeOrderedGroups_sorted_copy_witness :
  ∃ (r : nat) (sorted : list kv),
    @_computeOrderedGroups es_engine chart0 groups_store 7
    = Some (<[r := sorted]> groups_store, r)
    ∧ groups_store !! r = None
    ∧ sorted ≡ₚ [ {| key := VStr "b"; val := num 2 |};
                  {| key := VStr "c"; val := num 1 |};
                  {| key := VStr "a"; val := num 3 |} ]
    ∧ StronglySorted (@key_le es_engine chart0) sorted
    ∧ (<[r := sorted]> groups_store) !! 7%nat
      = Some [ {| key := VStr "b"; val := num 2 |};
               {| key := VStr "c"; val := num 1 |};
               {| key := VStr "a"; val := num 3 |} ].
Proof.
  destruct (@computeOrderedGroups_sorted_copy es_engine chart0 groups_store 7
              [ {| key := VStr "b"; val := num 2 |};
                {| key := VStr "c"; val := num 1 |};
                {| key := VStr "a"; val := num 3 |} ] eq_refl)
    as (r & sorted & Hrun & Hfresh & Hperm & Hsorted & Hdata & _).
  exists r, sorted. split; [exact Hrun|]. split; [exact Hfresh|].
  split; [exact Hperm|]. split; [|exact Hdata].
  apply Hsorted. vm_compute. reflexivity.
Defined.

(** Counterexample to C10 as stated: the records with the keys [NaN] and 1.
    Neither [NaN <= 1] nor [1 <= NaN] holds, so no arrangement of the two
    records is sorted ascending by key, the one that the call returns
    included. *)
Lemma computeOrderedGroups_NaN_counterexample :
  (∀ l, l ≡ₚ [ {| key := VNum NaN; val := num 1 |}; {| key := num 1; val := num 2 |} ]
        → ¬ Sorted (@key_le es_engine chart0) l)
  ∧ ∃ h' r sorted,
      @_computeOrderedGroups es_engine chart0 NaN_store 5 = Some (h', r)
      ∧ h' !! r = Some sorted
      ∧ ¬ Sorted (@key_le es_engine chart0) sorted.
Proof.
  assert (Hnone : ∀ l,
    l ≡ₚ [ {| key := VNum NaN; val := num 1 |}; {| key := num 1; val := num 2 |} ]
    → ¬ Sorted (@key_le es_engine chart0) l).
  { intros l Hperm Hsorted. symmetry in Hperm.
    apply Permutation_length_2_inv in Hperm as [->| ->];
      apply Sorted_inv in Hsorted as [_ Hhd];
      apply HdRel_inv in Hhd; vm_compute in Hhd; discriminate. }
  split; [exact Hnone|].
  eexists _, _, _. split; [vm_compute; reflexivity|]. split; [reflexivity|].
  apply Hnone. reflexivity.
Qed.

(** The sample store, sorted by key: a, b, c. *)
Example computeOrderedGroups_sample :
  (r ← @_computeOrderedGroups es_engine chart0 groups_store 7; r.1 !! r.2)
  = Some [ {| key := VStr "a"; val := num 3 |};
           {| key := VStr "b"; val := num 2 |};
           {| key := VStr "c"; val := num 1 |} ].
Proof. vm_compute. reflexivity. Qed.

(** Witness of C7: the three invalid percentage functions of the test suite
    make [render()] throw on three complete rings. *)
Lemma relativeRingSizes_validation_witness :
  Forall
    (λ percentages,
       Sunburst.is_BadArgument
         (Sunburst.render Sunburst.countdown small_tolerance
            {| Sunburst.innerRadius := 0%Qc; Sunburst.outerRadius := Q2Qc 100;
               Sunburst._ringSizes := Sunburst.relativeRingSizes percentages |}
            Sunburst.data3))
    [functionReturnsNonArray; tooManyPercentageValues; percentagesSumNot1].
Proof.
  repeat constructor.
  - destruct (relativeRingSizes_validation Sunburst.countdown small_tolerance
                Sunburst.chart3 functionReturnsNonArray Sunburst.data3)
      as (c' & Hset & Hiff & _).
    injection Hset as <-. apply Hiff. left. reflexivity.
  - destruct (relativeRingSizes_validation Sunburst.countdown small_tolerance
                Sunburst.chart3 tooManyPercentageValues Sunburst.data3)
      as (c' & Hset & Hiff & _).
    injection Hset as <-. apply Hiff.
    right. left. eexists. split; [reflexivity|]. vm_compute. lia.
  - destruct (relativeRingSizes_validation Sunburst.countdown small_tolerance
                Sunburst.chart3 percentagesSumNot1 Sunburst.data3)
      as (c' & Hset & Hiff & _).
    injection Hset as <-. apply Hiff.
    right. right. eexists. split; [reflexivity|].
    unfold Sunburst.within_tolerance. apply Qclt_nge. vm_compute. reflexivity.
Defined.

(** The valid percentages [.1, .3, .6] of the test suite render. *)
Example specificPercentages_render :
  ∃ layout,
    Sunburst.render Sunburst.countdown small_tolerance
      {| Sunburst.innerRadius := 0%Qc; Sunburst.outerRadius := Q2Qc 100;
         Sunburst._ringSizes := Sunburst.relativeRingSizes specificPercentages |}
      Sunburst.data3 = Normal layout
    ∧ Sunburst.thickness layout 1 = Some (Q2Qc 10)
    ∧ Sunburst.thickness layout 2 = Some (Q2Qc 30).
Proof.
  eexists. split; [vm_compute; reflexivity|].
  split; unfold Sunburst.thickness; simpl; f_equal;
    apply Qc_is_canon; vm_compute; reflexivity.
Qed.


(** The bound on the tolerance is needed and tight: with the tolerance 0
    the binary64 validation rejects the equal fractions of 6 rings, and with
    [2^-51], below [equal_rings_drift], those of 27 rings. *)
Example equalRingSizes_small_tolerance_throws :
  Binary64.render 0%float 0%float 100%float Binary64.equalRingSizes 6
  = Throw (BadArgumentException "portions must add up to 1")
  ∧ Binary64.render 0x1p-51%float 0%float 100%float Binary64.equalRingSizes 27
    = Throw (BadArgumentException "portions must add up to 1").
Proof. split; vm_compute; reflexivity. Qed.

(** The default policy of the model follows the weight it is given: with
    the weights 3, 2, 1 ring 1 is thicker than ring 2 (50 against 33 1/3 of
    100), with the weights 1, 2, 3 it is thinner (16 2/3 against 33 1/3). *)
Example defaultRingSizes_follows_weight :
  (∃ layout,
      Sunburst.render Sunburst.countdown 0%Qc Sunburst.chart3 Sunburst.data3
      = Normal layout
      ∧ Sunburst.thickness layout 1 = Some (Q2Qc 50)
      ∧ Sunburst.thickness layout 2 = Some (Q2Qc (100 # 3)))
  ∧ ∃ layout,
      Sunburst.render Sunburst.Qc_of_nat 0%Qc Sunburst.chart3 Sunburst.data3
      = Normal layout
      ∧ Sunburst.thickness layout 1 = Some (Q2Qc (100 # 6))
      ∧ Sunburst.thickness layout 2 = Some (Q2Qc (100 # 3)).
Proof.
  split; (eexists; split; [vm_compute; reflexivity|]);
    split; unfold Sunburst.thickness; simpl; f_equal;
    apply Qc_is_canon; vm_compute; reflexivity.
Qed.

(* ====================================================================== *)
(** * Part III. Further properties of the code *)
(* ====================================================================== *)

(** ** The filter list under the default handlers *)

Section FilterSetLaws.
Context `{Engine}.

Lemma remove_Forall (P : value → Prop) (fs : list value) (v : value) :
  Forall P fs → Forall P (_defaultRemoveFilterHandler fs v).
Proof.
  induction 1 as [|f fs Hf Hfs IH]; simpl; [constructor|].
  destruct (js_le f v && js_ge f v); [exact Hfs|].
  constructor; assumption.
Qed.

Lemma remove_distinct (fs : list value) (v : value) :
  distinct_filters fs → distinct_filters (_defaultRemoveFilterHandler fs v).
Proof.
  induction fs as [|f fs IH]; simpl; [trivial|].
  intros [Hf Hfs]. destruct (js_le f v && js_ge f v); [exact Hfs|].
  simpl. split; [now apply remove_Forall|now apply IH].
Qed.

Lemma add_distinct (fs : list value) (v : value) :
  existsb (λ f, js_le v f && js_ge v f) fs = false →
  distinct_filters fs → distinct_filters (_defaultAddFilterHandler fs v).
Proof.
  unfold _defaultAddFilterHandler.
  induction fs as [|f fs IH]; simpl; [intros _ _; split; [constructor|trivial]|].
  intros Hno [Hf Hfs]. apply orb_false_elim in Hno as [Hv Hrest].
  split; [|now apply IH].
  apply Forall_app. split; [exact Hf|].
  constructor; [|constructor].
  rewrite value_equal_sym. exact Hv.
Qed.

(** One toggle with the default handlers keeps the entries distinct. *)
Lemma toggle_distinct (c : BaseMixin) (fs : list value) (v : value) :
  default_handlers c → distinct_filters fs → distinct_filters (toggle c fs v).
Proof.
  intros (Hhas & Hadd & Hrem & _) Hfs. unfold toggle.
  rewrite Hhas, Hadd, Hrem.
  destruct (_defaultHasFilterHandler fs v) eqn:Hin; [now apply remove_distinct|].
  assert (Hcase : existsb (λ f, js_le v f && js_ge v f) fs = false).
  { destruct v; try exact Hin;
      simpl in Hin; apply bool_decide_eq_false in Hin;
      destruct fs; [reflexivity|simpl in Hin; lia|reflexivity|simpl in Hin; lia]. }
  now apply add_distinct.
Qed.

Lemma foldl_toggle_distinct (c : BaseMixin) (inner fs : list value) :
  default_handlers c → distinct_filters fs →
  distinct_filters (foldl (toggle c) fs inner).
Proof.
  intros Hdef. revert fs. induction inner as [|v inner IH]; intros fs Hfs; [exact Hfs|].
  simpl. apply IH. now apply toggle_distinct.
Qed.

Lemma nextFilters_distinct (c : BaseMixin) (v : value) :
  default_handlers c → distinct_filters (_filters c) →
  distinct_filters (nextFilters c v).
Proof.
  intros Hdef Hfs.
  assert (Hunit : distinct_filters (toggle c (_filters c) v))
    by now apply toggle_distinct.
  assert (Hreset : distinct_filters (_resetFilterHandler c (_filters c))).
  { destruct Hdef as (_ & _ & _ & ->). exact I. }
  destruct v as [| | | | |elems p t]; try exact Hunit; try exact Hreset.
  destruct elems as [|[] ?], p; try exact Hunit.
  simpl. now apply foldl_toggle_distinct.
Qed.

(** X1.  With the default handlers and no bound dimension, a filter list
    without two value-equal entries stays so under [filter(v)], for every
    argument [v]: a value, [null], [undefined] or a wrapper. *)
Theorem filter_keeps_distinct (c : BaseMixin) (v : value) :
  default_handlers c →
  _conf_dimension c = None →
  distinct_filters (filters c) →
  ∃ c', filter c (Some v) = Normal (c', This) ∧ distinct_filters (filters c').
Proof.
  intros Hdef Hdim Hfs.
  destruct (filter_unbound c v Hdim) as (c' & Hrun & Hnext & _).
  exists c'. split; [exact Hrun|].
  unfold filters. rewrite Hnext. now apply nextFilters_distinct.
Qed.

Lemma remove_length (fs : list value) (v : value) :
  existsb (λ f, js_le v f && js_ge v f) fs = true →
  S (List.length (_defaultRemoveFilterHandler fs v)) = List.length fs.
Proof.
  induction fs as [|f fs IH]; simpl; [discriminate|].
  fold (value_equal v f) (value_equal f v). rewrite (value_equal_sym f v).
  destruct (value_equal v f); simpl; [reflexivity|].
  intros Hrest. now rewrite IH.
Qed.

(** X2.  With the default handlers and no bound dimension, [filter(v)] for
    a [v] that is neither [null], [undefined] nor a wrapper changes the
    length of the filter list by exactly one: one entry fewer when
    [hasFilter(v)] held, one more when it did not. *)
Theorem filter_changes_length_by_one (c : BaseMixin) (v : value) :
  default_handlers c →
  _conf_dimension c = None →
  is_wrapper v = false →
  coercible v = true →
  ∃ c', filter c (Some v) = Normal (c', This)
        ∧ if hasFilter c (Some v)
          then S (List.length (filters c')) = List.length (filters c)
          else List.length (filters c') = S (List.length (filters c)).
Proof.
  intros (Hhas & Hadd & Hrem & _) Hdim Hw Hco.
  destruct (filter_unbound c v Hdim) as (c' & Hrun & Hnext & _).
  exists c'. split; [exact Hrun|].
  assert (Hnn : v ≠ VNull) by (intros ->; discriminate).
  unfold filters, hasFilter. simpl.
  rewrite Hnext, (nextFilters_unit c v Hw Hnn). unfold toggle.
  rewrite Hhas, Hadd, Hrem.
  destruct (_defaultHasFilterHandler (_filters c) v) eqn:Hin.
  - apply remove_length. destruct v; try discriminate; exact Hin.
  - unfold _defaultAddFilterHandler. rewrite length_app. simpl. lia.
Qed.

Lemma remove_no_match (fs : list value) (v : value) :
  Forall (λ f, value_equal f v = false) fs →
  _defaultRemoveFilterHandler fs v = fs.
Proof.
  induction 1 as [|f fs Hf Hfs IH]; simpl; [reflexivity|].
  fold (value_equal f v). rewrite Hf. now rewrite IH.
Qed.

(** X3.  With the default handlers and no bound dimension, [filter(undefined)]
    on a non-empty filter list none of whose entries is value-equal to
    [undefined] changes nothing in the list: the has handler answers for
    "any filter", the remove handler finds no match.  On an empty list it
    stores [undefined] as a filter. *)
Theorem filter_undefined (c : BaseMixin) :
  default_handlers c →
  _conf_dimension c = None →
  Forall (λ f, value_equal f VUndefined = false) (filters c) →
  ∃ c', filter c (Some VUndefined) = Normal (c', This)
        ∧ filters c' = match filters c with
                       | [] => [VUndefined]
                       | _ => filters c
                       end.
Proof.
  intros (Hhas & Hadd & Hrem & _) Hdim Hnone.
  destruct (filter_unbound c VUndefined Hdim) as (c' & Hrun & Hnext & _).
  exists c'. split; [exact Hrun|].
  unfold filters in *. rewrite Hnext. simpl. unfold toggle.
  rewrite Hhas, Hadd, Hrem. simpl.
  destruct (_filters c) as [|f fs] eqn:Hfs; [reflexivity|].
  rewrite bool_decide_eq_true_2 by (simpl; lia).
  now apply remove_no_match.
Qed.

(** X4.  With the default handlers and no bound dimension, [filter(v)] for
    a [v] that [hasFilter(v)] does not report (and that is neither [null]
    nor a wrapper) appends [v] behind the entries already there, after which
    [hasFilter()] holds, and [hasFilter(v)] holds too when [v] is
    value-equal to itself. *)
Theorem filter_appends (c : BaseMixin) (v : value) :
  default_handlers c →
  _conf_dimension c = None →
  is_wrapper v = false →
  v ≠ VNull →
  hasFilter c (Some v) = false →
  ∃ c', filter c (Some v) = Normal (c', This)
        ∧ filters c' = filters c ++ [v]
        ∧ hasFilter c' None = true
        ∧ (value_equal v v = true → hasFilter c' (Some v) = true).
Proof.
  intros (Hhas & Hadd & Hrem & _) Hdim Hw Hnn Hnot.
  destruct (filter_unbound c v Hdim) as (c' & Hrun & Hnext & Hh' & _).
  exists c'. split; [exact Hrun|].
  unfold hasFilter in Hnot. simpl in Hnot.
  assert (Hfs : _filters c' = _filters c ++ [v]).
  { rewrite Hnext, (nextFilters_unit c v Hw Hnn). unfold toggle.
    now rewrite Hnot, Hadd. }
  unfold filters, hasFilter. rewrite Hfs, Hh', Hhas. simpl.
  split; [reflexivity|]. split.
  - apply bool_decide_eq_true. rewrite length_app. simpl. lia.
  - intros Hself. now apply (has_after_add (_filters c) v).
Qed.

(** The list of lines 1016-1035 depends on the chart only through its filter
    list and its has/add/remove/reset handlers. *)
Lemma nextFilters_ext (c d : BaseMixin) (v : value) :
  _filters c = _filters d →
  _hasFilterHandler c = _hasFilterHandler d →
  _addFilterHandler c = _addFilterHandler d →
  _removeFilterHandler c = _removeFilterHandler d →
  _resetFilterHandler c = _resetFilterHandler d →
  nextFilters c v = nextFilters d v.
Proof.
  intros Hf Hh Ha Hr Hs.
  assert (Ht : toggle c = toggle d).
  { unfold toggle. now rewrite Hh, Ha, Hr. }
  unfold nextFilters. now rewrite Hf, Ht, Hs.
Qed.

(** X5.  Without a bound dimension and whatever the handlers,
    [replaceFilter(v)] leaves the same filter list as [filter(null)]
    followed by [filter(v)]. *)
Theorem replaceFilter_as_reset_then_filter (c : BaseMixin) (v : value) :
  _conf_dimension c = None →
  ∃ c1 c2 c3,
    filter c (Some VNull) = Normal (c1, This)
    ∧ filter c1 (Some v) = Normal (c2, This)
    ∧ replaceFilter c v = Normal (c3, This)
    ∧ filters c3 = filters c2.
Proof.
  intros Hdim.
  destruct (filter_unbound c VNull Hdim)
    as (c1 & Hrun1 & Hfs1 & Hh1 & Ha1 & Hr1 & Hs1 & Hd1).
  destruct (filter_unbound c1 v Hd1) as (c2 & Hrun2 & Hfs2 & _).
  destruct (filter_unbound (with_filters c (_resetFilterHandler c (_filters c))) v Hdim)
    as (c3 & Hrun3 & Hfs3 & _).
  exists c1, c2, c3. split; [exact Hrun1|]. split; [exact Hrun2|]. split.
  - unfold replaceFilter. now rewrite Hrun3.
  - unfold filters. rewrite Hfs3, Hfs2. unfold nextFilters in Hfs1.
    apply nextFilters_ext; simpl; congruence.
Qed.

(** The trace of a completed [filter(v)]: the notification, then the update
    of the controls when the chart has a root selection. *)
Lemma applyFilters_frame (c c1 : BaseMixin) (fs fs1 : list value) :
  applyFilters c fs = Normal (c1, fs1) →
  trace c1 = trace c ∧ _root c1 = _root c
  ∧ _hasFilterHandler c1 = _hasFilterHandler c.
Proof.
  unfold applyFilters.
  destruct (_conf_dimension c) as [dimension|]; [|intros [= <- _]; auto].
  destruct (filter_member dimension); [|intros [= <- _]; auto].
  destruct (_filterHandler c dimension fs) as [r|e]; simpl; [|discriminate].
  intros [= <- _]. auto.
Qed.

(** X6.  Whenever [filter(v)] completes, it has added to the trace of
    effects the [filtered] notification carrying [v] (none when [v] is
    [undefined]) and then, if the chart has a root selection, one update of
    the controls: switched on when [hasFilter()] holds for the new state,
    off otherwise.  Without a root selection the controls are not touched. *)
Theorem filter_notifies_then_updates_controls (c c' : BaseMixin) (v : value) (r : ret) :
  filter c (Some v) = Normal (c', r) →
  trace c' =
    trace c ++ filtered_notification v
    ++ match _root c with
       | RootSelection => [if hasFilter c' None then ControlsOn else ControlsOff]
       | _ => []
       end.
Proof.
  unfold filter.
  destruct (applyFilters c (nextFilters c v)) as [[c1 fs1]|e] eqn:Happly;
    simpl; [|discriminate].
  destruct (applyFilters_frame _ _ _ _ Happly) as (Htrace & Hroot & Hh).
  intros [= <- _]. rewrite <- Htrace, <- Hroot. clear Happly Htrace Hroot Hh.
  unfold turnOnControls, turnOffControls, root_not_null, root_truthy, hasFilter,
    _invokeFilteredListener, filtered_notification, emit.
  destruct (_hasFilterHandler c1 fs1 VUndefined) eqn:Hany;
    destruct v; simpl; rewrite ?Hany; destruct (_root c1); simpl;
    rewrite ?Hany; simpl; rewrite ?Hany;
    rewrite <- ?app_assoc; simpl; rewrite ?app_nil_r; reflexivity.
Qed.

(** X7.  With every handler the default one and a bound dimension,
    [filter(null)] completes, empties the filter list and, when the dimension
    has a [filter] method, clears it by the single call [filter(null)]; a
    dimension object without that method is left alone. *)
Theorem filter_null_clears_dimension (c : BaseMixin) (dimension : MinimalCFDimension) :
  all_default_handlers c →
  _conf_dimension c = Some dimension →
  ∃ c', filter c (Some VNull) = Normal (c', This)
        ∧ filters c' = []
        ∧ hasFilter c' None = false
        ∧ _conf_dimension c' =
            Some (if filter_member dimension
                  then called dimension (Filter VNull) else dimension).
Proof.
  intros [(Hhas & Hadd & Hrem & Hreset) Hfh] Hdim.
  unfold filter, applyFilters, nextFilters. rewrite Hdim, Hreset, Hfh.
  unfold _defaultResetFilterHandler.
  destruct (filter_member dimension); simpl.
  - eexists. split; [reflexivity|].
    unfold turnOnControls, turnOffControls, hasFilter, filters. simpl.
    rewrite Hhas. simpl.
    case_conditionals; simpl; rewrite ?Hhas; simpl; auto.
  - eexists. split; [reflexivity|].
    unfold turnOnControls, turnOffControls, hasFilter, filters. simpl.
    rewrite Hhas. simpl.
    case_conditionals; simpl; rewrite ?Hhas, ?Hdim; simpl; auto.
Qed.

(** The dimension of a chart after a call, as the list of calls made on it. *)
Lemma filter_bound_plain (c : BaseMixin) (dimension : MinimalCFDimension)
    (v : value) (pending : list value) :
  all_default_handlers c →
  _conf_dimension c = Some dimension →
  filter_member dimension = true →
  nextFilters c v = pending →
  ∀ dimension',
    _defaultFilterHandler dimension pending = Normal (dimension', Some pending) →
    ∃ c', filter c (Some v) = Normal (c', This)
          ∧ filters c' = pending
          ∧ _conf_dimension c' = Some dimension'
          ∧ all_default_handlers c'.
Proof.
  intros [(Hhas & Hadd & Hrem & Hreset) Hfh] Hdim Hmem Hnext dimension' Hrun.
  unfold filter, applyFilters. rewrite Hdim, Hmem, Hnext, Hfh, Hrun. simpl.
  eexists. split; [reflexivity|].
  unfold turnOnControls, turnOffControls, _invokeFilteredListener,
    all_default_handlers, default_handlers, filters.
  destruct v; simpl; case_conditionals; simpl; auto 10.
Qed.

(** X8.  With every handler the default one and a bound dimension,
    [replaceFilter(v)] for a plain value [v] (no [isFiltered], not [null],
    [undefined] or a wrapper) leaves exactly [[v]] and makes one call on the
    dimension, [filterExact(v)]; [filter(null)] followed by [filter(v)]
    reaches the same list with two calls, [filter(null)] first. *)
Theorem replaceFilter_applies_once (c : BaseMixin) (dimension : MinimalCFDimension)
    (v : value) :
  all_default_handlers c →
  _conf_dimension c = Some dimension →
  filter_member dimension = true →
  coercible v = true → has_isFiltered v = false → is_wrapper v = false →
  ∃ c1 c2 c3,
    replaceFilter c v = Normal (c3, This)
    ∧ filters c3 = [v]
    ∧ (calls <$> _conf_dimension c3) = Some (calls dimension ++ [FilterExact v])
    ∧ filter c (Some VNull) = Normal (c1, This)
    ∧ filter c1 (Some v) = Normal (c2, This)
    ∧ filters c2 = [v]
    ∧ (calls <$> _conf_dimension c2)
      = Some (calls dimension ++ [Filter VNull; FilterExact v]).
Proof.
  intros Hall Hdim Hmem Hco Hplain Hw.
  pose proof Hall as [(Hhas & Hadd & Hrem & Hreset) Hfh].
  assert (Hnn : v ≠ VNull) by (intros ->; discriminate).
  assert (Hone : ∀ d : BaseMixin,
             all_default_handlers d → _filters d = [] → nextFilters d v = [v]).
  { intros d [(Hh & Ha & _ & _) _] Hd.
    rewrite (nextFilters_unit d v Hw Hnn). unfold toggle.
    rewrite Hh, Ha, Hd. destruct v; try discriminate; reflexivity. }
  assert (Hexact : ∀ dim, _defaultFilterHandler dim [v]
                          = Normal (called dim (FilterExact v), Some [v])).
  { intros dim. destruct v as [| | | | |elems [fn|] t]; try discriminate; reflexivity. }
  (* the two-step path *)
  destruct (filter_bound_plain c dimension VNull [] Hall Hdim Hmem)
    with (dimension' := called dimension (Filter VNull))
    as (c1 & Hrun1 & Hfs1 & Hd1 & Hall1).
  { unfold nextFilters. now rewrite Hreset. }
  { reflexivity. }
  destruct (filter_bound_plain c1 (called dimension (Filter VNull)) v [v] Hall1 Hd1 Hmem)
    with (dimension' := called (called dimension (Filter VNull)) (FilterExact v))
    as (c2 & Hrun2 & Hfs2 & Hd2 & _).
  { now apply Hone. }
  { apply Hexact. }
  (* the one-step path *)
  set (c0 := with_filters c (_resetFilterHandler c (_filters c))).
  assert (Hall0 : all_default_handlers c0) by exact Hall.
  destruct (filter_bound_plain c0 dimension v [v] Hall0 Hdim Hmem)
    with (dimension' := called dimension (FilterExact v))
    as (c3 & Hrun3 & Hfs3 & Hd3 & _).
  { apply Hone; [exact Hall0|]. unfold c0. simpl. now rewrite Hreset. }
  { apply Hexact. }
  exists c1, c2, c3.
  split; [unfold replaceFilter; fold c0; now rewrite Hrun3|].
  split; [exact Hfs3|]. split; [now rewrite Hd3|].
  split; [exact Hrun1|]. split; [exact Hrun2|]. split; [exact Hfs2|].
  rewrite Hd2. simpl. now rewrite <- app_assoc.
Qed.

End FilterSetLaws.

(** ** Rendering and the anchor name *)

Lemma forEach_all_pass {A} (f : A → completion unit) (l : list A) :
  Forall (λ a, f a = Normal tt) l → forEach f l = Normal tt.
Proof.
  induction 1 as [|a l Ha Hl IH]; simpl; [reflexivity|].
  now rewrite Ha.
Qed.

Lemma forEach_first_failure {A} (f : A → completion unit)
    (pre post : list A) (a : A) (e : exn) :
  Forall (λ a, f a = Normal tt) pre → f a = Throw e →
  forEach f (pre ++ a :: post) = Throw e.
Proof.
  induction 1 as [|b pre Hb Hpre IH]; intros Ha; simpl.
  - now rewrite Ha.
  - rewrite Hb. simpl. now apply IH.
Qed.

Lemma checkForMandatoryAttributes_pass (c : BaseMixin) (a : string) :
  checkForMandatoryAttributes c a = Normal tt ↔ member c a = Some true.
Proof.
  unfold checkForMandatoryAttributes.
  destruct (member c a) as [[]|]; split; congruence.
Qed.

Lemma checkForMandatoryAttributes_fail (c : BaseMixin) (a : string) :
  member c a ≠ Some true →
  checkForMandatoryAttributes c a
  = Throw (InvalidStateException (missing_message c a)).
Proof.
  unfold checkForMandatoryAttributes.
  destruct (member c a) as [[]|]; congruence.
Qed.

Lemma checkForMandatoryAttributes_preRender (c : BaseMixin) (a : string) :
  checkForMandatoryAttributes (emit (forget_size c) (Dispatched "preRender" None)) a
  = checkForMandatoryAttributes c a.
Proof. reflexivity. Qed.

(** X9.  [render()] of a chart with a mandatory attribute list completes
    when every listed name is one of the accessors of [accessor_names] and
    yields a truthy value; and when the listed names up to some name do so,
    and that name is [dimension] (which the chart does not have) or one of
    those accessors yielding a falsy value, [render()] throws the
    [InvalidStateException] of that name, the first that fails the check in
    list order. *)
Theorem render_reports_first_missing (c : BaseMixin) (l : list string) :
  _mandatoryAttributesList c = Some l →
  (Forall (λ a, member c a = Some true) l → ∃ c', render c = Normal (c', This))
  ∧ (∀ pre a post,
        l = pre ++ a :: post →
        Forall (λ a, member c a = Some true) pre →
        member_modelled a = true →
        member c a ≠ Some true →
        render c = Throw (InvalidStateException (missing_message c a))).
Proof.
  intros Hlist. split.
  - intros Hall. unfold render. simpl. rewrite Hlist.
    rewrite forEach_all_pass; [simpl; eexists; reflexivity|].
    eapply Forall_impl; [exact Hall|]. intros a Ha.
    rewrite checkForMandatoryAttributes_preRender.
    now apply checkForMandatoryAttributes_pass.
  - intros pre a post -> Hpre _ Ha. unfold render. simpl. rewrite Hlist.
    rewrite (forEach_first_failure _ pre post a
               (InvalidStateException (missing_message c a))); [reflexivity| |].
    + eapply Forall_impl; [exact Hpre|]. intros b Hb.
      rewrite checkForMandatoryAttributes_preRender.
      now apply checkForMandatoryAttributes_pass.
    + rewrite checkForMandatoryAttributes_preRender.
      now apply checkForMandatoryAttributes_fail.
Qed.

(** Only the accessors of the table pass the check of the model. *)
Lemma member_true_modelled (c : BaseMixin) (a : string) :
  member c a = Some true → a ∈ accessor_names.
Proof.
  unfold member. intros Hm.
  repeat match type of Hm with
         | (if String.eqb a ?s then _ else _) = _ =>
             destruct (String.eqb a s) eqn:Heq;
             [apply String.eqb_eq in Heq; subst a;
              apply list_elem_of_In; simpl; tauto|clear Heq]
         end.
  discriminate.
Qed.

(** X10.  When the mandatory attributes pass (or no list is configured),
    [render()] forgets the cached width and height, leaves the filter list
    and the dimension alone, and produces its effects in this order:
    [preRender], the chart's drawing, the legend if one is attached,
    [pretransition], then [renderlet] and [postRender], which are dispatched
    at once unless the transition duration is positive and an svg exists, in
    which case they are only scheduled on the end of the transition. *)
Theorem render_effects_in_order (c : BaseMixin) :
  match _mandatoryAttributesList c with
  | Some l => Forall (λ a, member c a = Some true) l
  | None => True
  end →
  ∃ c', render c = Normal (c', This)
        ∧ _width c' = None ∧ _height c' = None
        ∧ filters c' = filters c
        ∧ _conf_dimension c' = _conf_dimension c
        ∧ trace c' =
            trace c
            ++ [Dispatched "preRender" None; DoRender]
            ++ (if _legend c then [LegendRender] else [])
            ++ [Dispatched "pretransition" None]
            ++ (if (0 <? _transitionDuration c)%Z && _svg c
                then [Scheduled "renderlet"; Scheduled "postRender"]
                else [Dispatched "renderlet" None; Dispatched "postRender" None]).
Proof.
  intros Hpass.
  assert (Hcheck :
    match _mandatoryAttributesList c with
    | Some l => forEach (checkForMandatoryAttributes
                           (emit (forget_size c) (Dispatched "preRender" None))) l
    | None => Normal tt
    end = Normal tt).
  { destruct (_mandatoryAttributesList c) as [l|]; [|reflexivity].
    apply forEach_all_pass. eapply Forall_impl; [exact Hpass|].
    intros a Ha. rewrite checkForMandatoryAttributes_preRender.
    now apply checkForMandatoryAttributes_pass. }
  unfold render. cbn -[Z.ltb]. cbn -[Z.ltb] in Hcheck. rewrite Hcheck.
  cbn -[Z.ltb]. eexists. split; [reflexivity|].
  unfold _activateRenderlets, _doRender, emit, filters. cbn -[Z.ltb].
  destruct (_legend c); cbn -[Z.ltb];
    destruct ((0 <? _transitionDuration c)%Z), (_svg c); cbn;
    repeat split; rewrite <- ?app_assoc; reflexivity.
Qed.

Lemma drop_first_hash_empty (s : string) :
  drop_first_hash s = "" ↔ s = "" ∨ s = "#".
Proof.
  destruct s as [|ch s]; simpl; [tauto|].
  destruct (Ascii.eqb ch "#") eqn:Hch.
  - apply Ascii.eqb_eq in Hch as ->. split.
    + intros ->. now right.
    + intros [?|[= ->]]; [discriminate|reflexivity].
  - split; [discriminate|]. intros [?|Heq]; [discriminate|].
    injection Heq as Hc Hs. subst ch. discriminate.
Qed.

(** X11.  [anchorName()] is the empty string for exactly one anchor, the
    bare selector ['#']; every other anchor, and no anchor at all, gives a
    non-empty name.  For a selector ['#' + id] it gives [id] back. *)
Theorem anchorName_empty_only_for_hash (c : BaseMixin) :
  (anchorName c = "" ↔ _anchor c = AnchorSelector "#")
  ∧ ∀ id, anchorName (anchor_set c ("#" +:+ id)) = id.
Proof.
  split; [|reflexivity].
  unfold anchorName. destruct (_anchor c) as [|s|id].
  - split; discriminate.
  - destruct (String.eqb s "") eqn:Hs.
    + apply String.eqb_eq in Hs as ->. split; discriminate.
    + apply String.eqb_neq in Hs. rewrite drop_first_hash_empty. split.
      * intros [? | ->]; [contradiction|reflexivity].
      * intros [= ->]. now right.
  - destruct (String.eqb id "") eqn:Hid.
    + split; discriminate.
    + apply String.eqb_neq in Hid. split; [contradiction|discriminate].
Qed.

(** ** Ordered groups and the dimension predicate *)


Section PredicateLaws.
Context `{Engine}.


(** X13.  The predicate that the default filter handler installs is a
    union: on filter lists without [null] or [undefined] entries, it accepts
    a datum for the concatenation of two lists exactly when it accepts it
    for one of them, and it never throws. *)
Theorem filterFunction_predicate_union (fs1 fs2 : list value) (d : value) :
  forallb coercible fs1 = true →
  forallb coercible fs2 = true →
  ∃ b1 b2,
    filterFunction_predicate fs1 d = Normal b1
    ∧ filterFunction_predicate fs2 d = Normal b2
    ∧ filterFunction_predicate (fs1 ++ fs2) d = Normal (b1 || b2).
Proof.
  intros H1 H2.
  exists (existsb (accepts d) fs1), (existsb (accepts d) fs2).
  rewrite !filterFunction_predicate_accepts; try assumption.
  - now rewrite existsb_app.
  - rewrite forallb_app. now rewrite H1, H2.
Qed.

(** X14.  For filters that are plain values (no [isFiltered]) and a datum
    that is neither [null] nor [undefined], the predicate installed on the
    dimension and the default has-filter handler agree: a datum passes the
    dimension filter exactly when [hasFilter] reports it as selected. *)
Theorem predicate_agrees_with_hasFilter (fs : list value) (d : value) :
  forallb (λ f, coercible f && negb (has_isFiltered f)) fs = true →
  coercible d = true →
  filterFunction_predicate fs d = Normal (_defaultHasFilterHandler fs d).
Proof.
  intros Hplain Hd.
  assert (Hco : forallb coercible fs = true).
  { apply forallb_forall. intros f Hf.
    apply (proj1 (forallb_forall _ _) Hplain) in Hf.
    now apply andb_prop in Hf as [? _]. }
  rewrite (filterFunction_predicate_accepts fs d Hco). f_equal.
  assert (Hex : existsb (accepts d) fs = existsb (λ f, js_le d f && js_ge d f) fs).
  { clear Hco. induction fs as [|f fs IH]; [reflexivity|].
    simpl in Hplain. apply andb_prop in Hplain as [Hf Hfs].
    apply andb_prop in Hf as [_ Hno]. simpl. rewrite (IH Hfs). f_equal.
    fold (value_equal d f). rewrite (value_equal_sym d f).
    destruct f as [| | | | |elems [fn|] t]; try reflexivity. discriminate. }
  rewrite Hex. destruct d; try discriminate; reflexivity.
Qed.

End PredicateLaws.
(** ** Whiskers of the box plot *)

Section WhiskerLaws.
Local Open Scope float_scope.

Lemma scan_up_spec (bound : float) (rest : list float) (i : Z) :
  ∃ n : nat,
    BoxPlot.scan_up bound rest i = (i + Z.of_nat n)%Z
    ∧ (n ≤ List.length rest)%nat
    ∧ (∀ m x, (m < n)%nat → rest !! m = Some x → PrimFloat.ltb x bound = true)
    ∧ (∀ x, rest !! n = Some x → PrimFloat.ltb x bound = false).
Proof.
  revert i. induction rest as [|y rest IH]; intros i; simpl.
  - exists 0%nat. repeat split; try lia; try discriminate.
    all: intros m x Hm; lia.
  - destruct (PrimFloat.ltb y bound) eqn:Hy.
    + destruct (IH (i + 1)%Z) as (n & Hrun & Hlen & Hbelow & Hat).
      exists (S n). split; [rewrite Hrun; lia|]. split; [lia|]. split.
      * intros m x Hm Hx. destruct m as [|m]; simpl in Hx.
        -- now injection Hx as <-.
        -- apply (Hbelow m); [lia|exact Hx].
      * intros x Hx. simpl in Hx. now apply Hat.
    + exists 0%nat. split; [lia|]. split; [lia|]. split.
      * intros m x Hm. lia.
      * intros x Hx. simpl in Hx. now injection Hx as <-.
Qed.

Lemma scan_down_spec (bound : float) (rest : list float) (j : Z) :
  ∃ n : nat,
    BoxPlot.scan_down bound rest j = (j - Z.of_nat n)%Z
    ∧ (n ≤ List.length rest)%nat
    ∧ (∀ m x, (m < n)%nat → rest !! m = Some x → PrimFloat.ltb bound x = true)
    ∧ (∀ x, rest !! n = Some x → PrimFloat.ltb bound x = false).
Proof.
  revert j. induction rest as [|y rest IH]; intros j; simpl.
  - exists 0%nat. repeat split; try lia; try discriminate.
    all: intros m x Hm; lia.
  - destruct (PrimFloat.ltb bound y) eqn:Hy.
    + destruct (IH (j - 1)%Z) as (n & Hrun & Hlen & Habove & Hat).
      exists (S n). split; [rewrite Hrun; lia|]. split; [lia|]. split.
      * intros m x Hm Hx. destruct m as [|m]; simpl in Hx.
        -- now injection Hx as <-.
        -- apply (Habove m); [lia|exact Hx].
      * intros x Hx. simpl in Hx. now apply Hat.
    + exists 0%nat. split; [lia|]. split; [lia|]. split.
      * intros m x Hm. lia.
      * intros x Hx. simpl in Hx. now injection Hx as <-.
Qed.

Lemma at_index_Some (d : BoxPlot.box_sample) (m : Z) (x : float) :
  BoxPlot.at_index d m = Some x ↔
  (0 ≤ m)%Z ∧ BoxPlot.sample d !! Z.to_nat m = Some x.
Proof.
  unfold BoxPlot.at_index. destruct (m <? 0)%Z eqn:Hm.
  - apply Z.ltb_lt in Hm. split; [discriminate|lia].
  - apply Z.ltb_ge in Hm. tauto.
Qed.

(** The facts about the two scans, shared by the statements below. *)
Lemma defaultWhiskersIQR_bounds_aux (k : float) (d : BoxPlot.box_sample) :
  let i := (BoxPlot.defaultWhiskersIQR k d).1 in
  let j := (BoxPlot.defaultWhiskersIQR k d).2 in
  let len := Z.of_nat (List.length (BoxPlot.sample d)) in
  (0 ≤ i ≤ len)%Z
  ∧ (-1 ≤ j ≤ len - 1)%Z
  ∧ (∀ m x, (m < i)%Z → BoxPlot.at_index d m = Some x →
            PrimFloat.ltb x (BoxPlot.lower_fence k d) = true)
  ∧ (∀ x, BoxPlot.at_index d i = Some x →
          PrimFloat.ltb x (BoxPlot.lower_fence k d) = false)
  ∧ (∀ m x, (j < m)%Z → BoxPlot.at_index d m = Some x →
            PrimFloat.ltb (BoxPlot.upper_fence k d) x = true)
  ∧ (∀ x, BoxPlot.at_index d j = Some x →
          PrimFloat.ltb (BoxPlot.upper_fence k d) x = false).
Proof.
  unfold BoxPlot.defaultWhiskersIQR, BoxPlot.lower_fence, BoxPlot.upper_fence.
  cbn zeta. simpl fst. simpl snd.
  set (lo := (BoxPlot.quartiles d).1.1
             - ((BoxPlot.quartiles d).2 - (BoxPlot.quartiles d).1.1) * k).
  set (hi := (BoxPlot.quartiles d).2
             + ((BoxPlot.quartiles d).2 - (BoxPlot.quartiles d).1.1) * k).
  set (l := BoxPlot.sample d).
  destruct (scan_up_spec lo l 0) as (n & -> & Hn & Hbelow & Hat).
  destruct (scan_down_spec hi (reverse l) (Z.of_nat (List.length l) - 1))
    as (n' & -> & Hn' & Habove & Hat').
  rewrite length_reverse in Hn'.
  split; [lia|]. split; [lia|]. split; [|split; [|split]].
  - intros m x Hm Hx. apply at_index_Some in Hx as [Hm0 Hx].
    apply (Hbelow (Z.to_nat m)); [lia|exact Hx].
  - intros x Hx. apply at_index_Some in Hx as [_ Hx].
    apply Hat. now replace n with (Z.to_nat (0 + Z.of_nat n)) by lia.
  - intros m x Hm Hx. apply at_index_Some in Hx as [Hm0 Hx].
    fold l in Hx. pose proof (lookup_lt_Some _ _ _ Hx) as Hlt.
    apply (Habove (List.length l - S (Z.to_nat m))%nat); [lia|].
    rewrite reverse_lookup by lia. rewrite <- Hx. f_equal. lia.
  - intros x Hx. apply at_index_Some in Hx as [Hj0 Hx].
    fold l in Hx. pose proof (lookup_lt_Some _ _ _ Hx) as Hlt.
    apply Hat'. rewrite reverse_lookup by lia. rewrite <- Hx. f_equal. lia.
Qed.

(** X15.  In binary64, the indices [[i, j]] returned by
    [defaultWhiskersIQR(k)] satisfy [0 <= i <= d.length] and
    [-1 <= j <= d.length - 1]; for every value [x] before [i] the test
    [x < q1 - (q3 - q1) * k] of the first loop holds and for the value at
    [i], if there is one, it fails; for every value [x] behind [j] the test
    [x > q3 + (q3 - q1) * k] of the second loop holds and for the value at
    [j], if there is one, it fails.  (So [i] is [d.length] when all values
    lie below the lower fence, and [j] is [-1] when all lie above the upper
    one.) *)
Theorem defaultWhiskersIQR_bounds (k : float) (d : BoxPlot.box_sample) :
  let i := (BoxPlot.defaultWhiskersIQR k d).1 in
  let j := (BoxPlot.defaultWhiskersIQR k d).2 in
  let len := Z.of_nat (List.length (BoxPlot.sample d)) in
  (0 ≤ i ≤ len)%Z
  ∧ (-1 ≤ j ≤ len - 1)%Z
  ∧ (∀ m x, (m < i)%Z → BoxPlot.at_index d m = Some x →
            PrimFloat.ltb x (BoxPlot.lower_fence k d) = true)
  ∧ (∀ x, BoxPlot.at_index d i = Some x →
          PrimFloat.ltb x (BoxPlot.lower_fence k d) = false)
  ∧ (∀ m x, (j < m)%Z → BoxPlot.at_index d m = Some x →
            PrimFloat.ltb (BoxPlot.upper_fence k d) x = true)
  ∧ (∀ x, BoxPlot.at_index d j = Some x →
          PrimFloat.ltb (BoxPlot.upper_fence k d) x = false).
Proof.
  intros i j len.
  destruct (defaultWhiskersIQR_bounds_aux k d)
    as (Hi & Hj & Hbelow & Hat & Habove & Hat').
  split; [exact Hi|]. split; [exact Hj|].
  split; [exact Hbelow|]. split; [exact Hat|].
  split; [exact Habove|exact Hat'].
Qed.

Lemma sorted_lookup_le (l : list float) (a b : nat) (x y : float) :
  StronglySorted BoxPlot.le l → (a < b)%nat →
  l !! a = Some x → l !! b = Some y → PrimFloat.leb x y = true.
Proof.
  intros Hs. revert a b. induction Hs as [|z l Hl IH Hz]; intros a b Hab Ha Hb.
  - discriminate.
  - destruct a as [|a], b as [|b]; simpl in *; try lia.
    + injection Ha as <-. rewrite Forall_forall in Hz. apply Hz.
      eapply list_elem_of_lookup_2. exact Hb.
    + apply (IH a b); [lia|assumption|assumption].
Qed.

(** X16.  In binary64, on a sample sorted in ascending order (each value
    [<=] every later one), the indices [[i, j]] of [defaultWhiskersIQR(k)]
    delimit exactly the values that neither loop test rejects: a position
    [m] of the sample lies in [i..j] iff its value is neither below the
    lower fence nor above the upper fence, the fences rounded as the
    function computes them.  Hence, when there is such a value, [i] and [j]
    are positions of the sample and [i <= j]. *)
Theorem defaultWhiskersIQR_delimits_inliers (k : float) (d : BoxPlot.box_sample) :
  StronglySorted BoxPlot.le (BoxPlot.sample d) →
  let i := (BoxPlot.defaultWhiskersIQR k d).1 in
  let j := (BoxPlot.defaultWhiskersIQR k d).2 in
  ∀ m x, BoxPlot.at_index d m = Some x →
    ((i ≤ m ≤ j)%Z
     ↔ PrimFloat.ltb x (BoxPlot.lower_fence k d) = false
       ∧ PrimFloat.ltb (BoxPlot.upper_fence k d) x = false)
    ∧ (PrimFloat.ltb x (BoxPlot.lower_fence k d) = false
       ∧ PrimFloat.ltb (BoxPlot.upper_fence k d) x = false →
       (0 ≤ i ≤ j)%Z ∧ (j < Z.of_nat (List.length (BoxPlot.sample d)))%Z).
Proof.
  intros Hsorted i j m x Hx.
  destruct (defaultWhiskersIQR_bounds_aux k d)
    as (Hi & Hj & Hbelow & Hat & Habove & Hat').
  fold i j in Hi, Hj, Hbelow, Hat, Habove, Hat'.
  pose proof Hx as Hx'. apply at_index_Some in Hx' as [Hm0 Hmx].
  pose proof (lookup_lt_Some _ _ _ Hmx) as Hmlen.
  assert (Hiff : (i ≤ m ≤ j)%Z
                 ↔ PrimFloat.ltb x (BoxPlot.lower_fence k d) = false
                   ∧ PrimFloat.ltb (BoxPlot.upper_fence k d) x = false).
  { split.
    - intros [Him Hmj]. split.
      + destruct (decide (i = m)) as [->|Hne]; [now apply Hat|].
        destruct (BoxPlot.sample d !! Z.to_nat i) as [xi|] eqn:Hxi.
        * assert (Hnot : PrimFloat.ltb xi (BoxPlot.lower_fence k d) = false).
          { apply Hat. apply at_index_Some. split; [lia|exact Hxi]. }
          assert (Hle : PrimFloat.leb xi x = true).
          { apply (sorted_lookup_le _ (Z.to_nat i) (Z.to_nat m) _ _ Hsorted);
              [lia|exact Hxi|exact Hmx]. }
          destruct (PrimFloat.ltb x (BoxPlot.lower_fence k d)) eqn:Hlt; [|reflexivity].
          rewrite (leb_ltb_trans _ _ _ Hle Hlt) in Hnot. discriminate.
        * apply lookup_ge_None in Hxi. lia.
      + destruct (decide (m = j)) as [->|Hne]; [now apply Hat'|].
        destruct (BoxPlot.sample d !! Z.to_nat j) as [xj|] eqn:Hxj.
        * assert (Hnot : PrimFloat.ltb (BoxPlot.upper_fence k d) xj = false).
          { apply Hat'. apply at_index_Some. split; [lia|exact Hxj]. }
          assert (Hle : PrimFloat.leb x xj = true).
          { apply (sorted_lookup_le _ (Z.to_nat m) (Z.to_nat j) _ _ Hsorted);
              [lia|exact Hmx|exact Hxj]. }
          destruct (PrimFloat.ltb (BoxPlot.upper_fence k d) x) eqn:Hlt; [|reflexivity].
          rewrite (ltb_leb_trans _ _ _ Hlt Hle) in Hnot. discriminate.
        * apply lookup_ge_None in Hxj. lia.
    - intros [Hlo Hhi]. split.
      + apply Z.le_ngt. intros Hlt.
        rewrite (Hbelow m x Hlt Hx) in Hlo. discriminate.
      + apply Z.le_ngt. intros Hlt.
        rewrite (Habove m x Hlt Hx) in Hhi. discriminate. }
  split; [exact Hiff|].
  intros Hin. apply Hiff in Hin. lia.
Qed.

(** Rounding moves the fences: for the sample [-1.7, 0.1, 0.7, 1.3, 3.1]
    and [k = 1.5] the fences are [-1.7] and [3.1] in exact arithmetic, which
    would keep all five values, but [1.3 - 0.1] rounds up, the lower fence
    comes out above [-1.7] and the upper one below [3.1], and the whiskers
    are [[1, 3]]. *)
Example defaultWhiskersIQR_rounding :
  BoxPlot.defaultWhiskersIQR 1.5 BoxPlot.sample5 = (1%Z, 3%Z).
Proof. vm_compute. reflexivity. Qed.

End WhiskerLaws.

(** ** The further properties at concrete inputs *)

Lemma filter_keeps_distinct_witness :
  ∃ c', filter (chart_with [num 1; VStr "a"]) (Some (num 2)) = Normal (c', This)
        ∧ @distinct_filters es_engine (filters c').
Proof.
  apply (@filter_keeps_distinct es_engine (chart_with [num 1; VStr "a"]) (num 2)).
  - repeat split.
  - reflexivity.
  - simpl. repeat constructor.
Defined.

Lemma filter_changes_length_by_one_witness :
  ∃ c', filter (chart_with [num 1; VStr "a"]) (Some (num 1)) = Normal (c', This)
        ∧ S (List.length (filters c')) = 2%nat.
Proof.
  apply (@filter_changes_length_by_one es_engine (chart_with [num 1; VStr "a"]) (num 1)).
  - repeat split.
  - reflexivity.
  - reflexivity.
  - reflexivity.
Defined.

Lemma filter_undefined_witness :
  ∃ c', filter (chart_with [num 1]) (Some VUndefined) = Normal (c', This)
        ∧ filters c' = [num 1].
Proof.
  apply (@filter_undefined es_engine (chart_with [num 1])).
  - repeat split.
  - reflexivity.
  - repeat constructor.
Defined.

Lemma filter_appends_witness :
  ∃ c', filter (chart_with [num 1]) (Some (VStr "a")) = Normal (c', This)
        ∧ filters c' = [num 1; VStr "a"]
        ∧ hasFilter c' None = true
        ∧ (@value_equal es_engine (VStr "a") (VStr "a") = true
           → hasFilter c' (Some (VStr "a")) = true).
Proof.
  apply (@filter_appends es_engine (chart_with [num 1]) (VStr "a")).
  - repeat split.
  - reflexivity.
  - reflexivity.
  - discriminate.
  - reflexivity.
Defined.

Lemma replaceFilter_as_reset_then_filter_witness :
  ∃ c1 c2 c3,
    filter (chart_with [num 1]) (Some VNull) = Normal (c1, This)
    ∧ filter c1 (Some (num 2)) = Normal (c2, This)
    ∧ replaceFilter (chart_with [num 1]) (num 2) = Normal (c3, This)
    ∧ filters c3 = filters c2.
Proof.
  apply (replaceFilter_as_reset_then_filter (chart_with [num 1]) (num 2)).
  reflexivity.
Defined.

Lemma filter_notifies_then_updates_controls_witness :
  ∃ c', filter chart_a (Some (num 1)) = Normal (c', This)
        ∧ trace c' = [Dispatched "filtered" (Some (num 1)); ControlsOn].
Proof.
  eexists. split; [reflexivity|].
  etransitivity.
  - apply (filter_notifies_then_updates_controls chart_a _ (num 1) This).
    reflexivity.
  - reflexivity.
Defined.

Lemma filter_null_clears_dimension_witness :
  ∃ c', filter (with_filters chart_bound [num 1]) (Some VNull) = Normal (c', This)
        ∧ filters c' = []
        ∧ hasFilter c' None = false
        ∧ _conf_dimension c' = Some (called dimension0 (Filter VNull)).
Proof.
  apply (@filter_null_clears_dimension es_engine
           (with_filters chart_bound [num 1]) dimension0).
  - repeat split.
  - reflexivity.
Defined.

Lemma replaceFilter_applies_once_witness :
  ∃ c1 c2 c3,
    replaceFilter (with_filters chart_bound [num 1]) (num 5) = Normal (c3, This)
    ∧ filters c3 = [num 5]
    ∧ (calls <$> _conf_dimension c3) = Some [FilterExact (num 5)]
    ∧ filter (with_filters chart_bound [num 1]) (Some VNull) = Normal (c1, This)
    ∧ filter c1 (Some (num 5)) = Normal (c2, This)
    ∧ filters c2 = [num 5]
    ∧ (calls <$> _conf_dimension c2) = Some [Filter VNull; FilterExact (num 5)].
Proof.
  apply (@replaceFilter_applies_once es_engine
           (with_filters chart_bound [num 1]) dimension0 (num 5)).
  - repeat split.
  - reflexivity.
  - reflexivity.
  - reflexivity.
  - reflexivity.
  - reflexivity.
Defined.

Lemma render_reports_first_missing_witness :
  render chart_three_mandatory
  = Throw (InvalidStateException
             "Mandatory attribute chart.legend is missing on chart[#a]").
Proof.
  apply (proj2 (render_reports_first_missing chart_three_mandatory
                  ["group"; "legend"; "dimension"] eq_refl)
           ["group"] "legend" ["dimension"] eq_refl).
  - repeat constructor.
  - reflexivity.
  - discriminate.
Defined.

Lemma render_effects_in_order_witness :
  ∃ c', render chart_group_only = Normal (c', This)
        ∧ _width c' = None ∧ _height c' = None
        ∧ filters c' = []
        ∧ _conf_dimension c' = None
        ∧ trace c' = [Dispatched "preRender" None; DoRender;
                      Dispatched "pretransition" None;
                      Dispatched "renderlet" None; Dispatched "postRender" None].
Proof.
  apply (render_effects_in_order chart_group_only).
  repeat constructor.
Defined.


Lemma filterFunction_predicate_union_witness :
  ∃ b1 b2,
    @filterFunction_predicate es_engine [num 1] (num 11) = Normal b1
    ∧ @filterFunction_predicate es_engine [above (num 10)] (num 11) = Normal b2
    ∧ @filterFunction_predicate es_engine [num 1; above (num 10)] (num 11)
      = Normal (b1 || b2).
Proof.
  apply (@filterFunction_predicate_union es_engine [num 1] [above (num 10)] (num 11));
    reflexivity.
Defined.

Lemma predicate_agrees_with_hasFilter_witness :
  @filterFunction_predicate es_engine [num 1; VStr "a"] (VStr "a")
  = Normal (@_defaultHasFilterHandler es_engine [num 1; VStr "a"] (VStr "a")).
Proof.
  apply (@predicate_agrees_with_hasFilter es_engine [num 1; VStr "a"] (VStr "a"));
    reflexivity.
Defined.

(** The sample with two outliers: the whiskers run from position 1 to 5. *)
Example defaultWhiskersIQR_sample :
  BoxPlot.defaultWhiskersIQR 1.5%float BoxPlot.sample7 = (1, 5)%Z.
Proof. vm_compute. reflexivity. Qed.

Lemma sample7_sorted : StronglySorted BoxPlot.le (BoxPlot.sample BoxPlot.sample7).
Proof.
  simpl. repeat constructor; vm_compute; reflexivity.
Qed.

Lemma defaultWhiskersIQR_delimits_inliers_witness :
  ((1 ≤ 3 ≤ 5)%Z
   ↔ PrimFloat.ltb 12%float (BoxPlot.lower_fence 1.5%float BoxPlot.sample7) = false
     ∧ PrimFloat.ltb (BoxPlot.upper_fence 1.5%float BoxPlot.sample7) 12%float = false)
  ∧ (PrimFloat.ltb 12%float (BoxPlot.lower_fence 1.5%float BoxPlot.sample7) = false
     ∧ PrimFloat.ltb (BoxPlot.upper_fence 1.5%float BoxPlot.sample7) 12%float = false
     → (0 ≤ 1 ≤ 5)%Z ∧ (5 < 7)%Z).
Proof.
  exact (defaultWhiskersIQR_delimits_inliers 1.5%float BoxPlot.sample7
           sample7_sorted 3%Z 12%float eq_refl).
Defined.
